(** * Label store and navigation of the image labeler ([label_data.py])

    A shallow embedding of [prepare_image] and of the [Labeler] class:
    the table of labels ([doors_df], a pandas [DataFrame]), its file
    ([path_to_csv]), and the handlers that move through the images and
    the labels.  Handlers are functions of an explicit world (the
    [Labeler] object and the file system) that return either a value or
    the Python exception they raise, together with the world they leave
    behind. *)

From stdpp Require Import gmap strings list fin_maps.
From Stdlib Require Import ZArith Ascii DecimalPos.

Local Open Scope string_scope.
Local Open Scope Z_scope.
Local Open Scope list_scope.

(** ** Python values used by the program *)

Inductive exn :=
| KeyError (key : string)
| IndexError
| ValueError
| ParserError
| EmptyDataError
| FileNotFoundError (path : string)
| OSError (path : string).

Inductive result (A : Type) :=
| Ok (a : A)
| Raise (e : exn).
Arguments Ok {A} a.
Arguments Raise {A} e.

(** [l[i]] on a Python list: negative indices count from the end, and an
    index outside [-len, len) raises [IndexError]. *)
Definition py_index {A} (l : list A) (i : Z) : result A :=
  let n := Z.of_nat (length l) in
  if (0 <=? i) && (i <? n) then
    match l !! Z.to_nat i with Some x => Ok x | None => Raise IndexError end
  else if (- n <=? i) && (i <? 0) then
    match l !! Z.to_nat (n + i) with Some x => Ok x | None => Raise IndexError end
  else Raise IndexError.

(** [os.path.join] on two components. *)
Definition ends_with_slash (s : string) : bool :=
  match String.get (String.length s - 1)%nat s with
  | Some a => Ascii.eqb a "/"%char
  | None => false
  end.

Definition path_join (a b : string) : string :=
  match b with
  | String c _ =>
      if Ascii.eqb c "/"%char then b
      else if (String.eqb a "") || ends_with_slash a then a +:+ b
      else a +:+ "/" +:+ b
  | EmptyString => if (String.eqb a "") || ends_with_slash a then a else a +:+ "/"
  end.

(** ** Images and [prepare_image]

    A raster image has a size and a value at every pixel position; [0]
    is the value PIL fills in where there is no source pixel. *)

Record Image := {
  width : Z;
  height : Z;
  getpixel : Z -> Z -> Z
}.

Definition in_image (im : Image) (x y : Z) : bool :=
  (0 <=? x) && (x <? width im) && (0 <=? y) && (y <? height im).

(** [Image.crop(box)]: the box is (left [x0], upper [y0], right [x1],
    lower [y1]).  PIL
    raises [ValueError] only for a box whose right edge is left of its
    left edge or whose lower edge is above its upper edge; the region
    of the box that lies outside the source is filled with zeros. *)
Definition crop (im : Image) (box : Z * Z * Z * Z) : result Image :=
  let '(x0, y0, x1, y1) := box in
  if x1 <? x0 then Raise ValueError
  else if y1 <? y0 then Raise ValueError
  else Ok {| width := x1 - x0;
             height := y1 - y0;
             getpixel := fun x y =>
               if in_image im (x + x0) (y + y0)
               then getpixel im (x + x0) (y + y0) else 0 |}.

Definition IMAGE_CROP_AREA : Z * Z * Z * Z := (1020, 510, 1300, 1350).

Definition prepare_image (image : Image) : result Image :=
  crop image IMAGE_CROP_AREA.

(** The crop rectangle lies within the bounds of the source image. *)
Definition crop_within_bounds (im : Image) : Prop :=
  let '(x0, y0, x1, y1) := IMAGE_CROP_AREA in
  0 <= x0 /\ x1 <= width im /\ 0 <= y0 /\ y1 <= height im.

(** ** Cells of a pandas table

    The program stores Python strings and integers in the table and
    compares cells of the [image] column with a string; [pd.read_csv]
    brings in integers, floating-point numbers and booleans as well.
    The program never looks into a number, and a floating-point number
    is kept as a literal that denotes it. *)

Inductive cell :=
| CStr (s : string)        (* a Python str *)
| CInt (z : Z)             (* an integer *)
| CFloat (lit : string)    (* the floating-point number the literal [lit] denotes *)
| CBool (b : bool)         (* True or False *)
| CNaN                     (* a missing value *)
| CNone.                   (* Python's None *)

Global Instance cell_eq_dec : EqDecision cell.
Proof. solve_decision. Defined.

(** *** What [read_csv] makes of a field *)

(** The strings pandas 1.x reads as a missing value. *)
Definition NA_VALUES : list string :=
  [""; "#N/A"; "#N/A N/A"; "#NA"; "-1.#IND"; "-1.#QNAN"; "-NaN"; "-nan";
   "1.#IND"; "1.#QNAN"; "<NA>"; "N/A"; "NA"; "NULL"; "NaN"; "n/a"; "nan";
   "null"].

Definition is_na (s : string) : bool := bool_decide (s ∈ NA_VALUES).

Definition lower_ascii (a : ascii) : ascii :=
  let n := nat_of_ascii a in
  if ((65 <=? n) && (n <=? 90))%nat then ascii_of_nat (n + 32) else a.

Fixpoint lower (s : string) : string :=
  match s with
  | String a s' => String (lower_ascii a) (lower s')
  | EmptyString => EmptyString
  end.

(** The words true and false, in capital or small letters or any mix
    of them. *)
Definition is_bool (s : string) : bool :=
  bool_decide (lower s ∈ ["true"; "false"]).

Definition is_digit (a : ascii) : bool :=
  let n := nat_of_ascii a in ((48 <=? n) && (n <=? 57))%nat.

Definition is_space_ascii (a : ascii) : bool :=
  let n := nat_of_ascii a in (((9 <=? n) && (n <=? 13)) || (n =? 32))%nat.

Fixpoint skip_spaces (s : string) : string :=
  match s with
  | String a s' => if is_space_ascii a then skip_spaces s' else s
  | EmptyString => s
  end.

Definition skip_sign (s : string) : string :=
  match s with
  | String a s' =>
      if Ascii.eqb a "+"%char || Ascii.eqb a "-"%char then s' else s
  | EmptyString => s
  end.

(** The digits at the front of [s]: how many there are, and the rest. *)
Fixpoint skip_digits (s : string) : nat * string :=
  match s with
  | String a s' =>
      if is_digit a then let '(n, r) := skip_digits s' in (S n, r) else (O, s)
  | EmptyString => (O, s)
  end.

Definition skip_fraction (s : string) : nat * string :=
  match s with
  | String a s' => if Ascii.eqb a "."%char then skip_digits s' else (O, s)
  | EmptyString => (O, s)
  end.

(** An exponent needs at least one digit; [None] when it has none. *)
Definition skip_exponent (s : string) : option string :=
  match s with
  | String a s' =>
      if Ascii.eqb a "e"%char || Ascii.eqb a "E"%char then
        let '(n, r) := skip_digits (skip_sign s') in
        if (n =? 0)%nat then None else Some r
      else Some s
  | EmptyString => Some s
  end.

(** A decimal literal: blanks, a sign, digits with an optional
    fraction (at least one digit in all), an optional exponent,
    blanks. *)
Definition is_decimal (s : string) : bool :=
  let '(n1, s1) := skip_digits (skip_sign (skip_spaces s)) in
  let '(n2, s2) := skip_fraction s1 in
  if (n1 + n2 =? 0)%nat then false
  else match skip_exponent s2 with
       | Some s3 => String.eqb (skip_spaces s3) ""
       | None => false
       end.

Definition is_inf (s : string) : bool :=
  bool_decide (lower s ∈ ["inf"; "-inf"; "+inf";
                          "infinity"; "-infinity"; "+infinity"]).

(** A literal of a floating-point number.  Its size is not looked at:
    pandas takes a literal too large for a floating-point number
    (1e400) for text. *)
Definition is_number (s : string) : bool := is_decimal s || is_inf s.

(** The value of the digits at the front of [s], after [acc]. *)
Fixpoint digits_value (s : string) (acc : Z) : Z :=
  match s with
  | String a s' =>
      if is_digit a
      then digits_value s' (10 * acc + Z.of_nat (nat_of_ascii a - 48))
      else acc
  | EmptyString => acc
  end.

Definition is_minus (s : string) : bool :=
  match s with
  | String a _ => Ascii.eqb a "-"%char
  | EmptyString => false
  end.

(** An integer literal and its value: blanks, a sign, digits, blanks. *)
Definition int_literal (s : string) : option Z :=
  let s0 := skip_spaces s in
  let s1 := skip_sign s0 in
  let '(n, r) := skip_digits s1 in
  if (n =? 0)%nat then None
  else if String.eqb (skip_spaces r) ""
       then Some (if is_minus s0 then - digits_value s1 0 else digits_value s1 0)
       else None.

Definition is_int (s : string) : bool :=
  match int_literal s with Some _ => true | None => false end.

Definition in_int64 (z : Z) : bool := (- 2 ^ 63 <=? z) && (z <? 2 ^ 63).
Definition in_uint64 (z : Z) : bool := (0 <=? z) && (z <? 2 ^ 64).

(** A carriage return ends a record for [read_csv], also within a
    field that [to_csv] has written (it puts no quotes around such a
    field), and a NUL character ends a field.  A plain text has
    neither. *)
Definition CR : ascii := ascii_of_nat 13.
Definition NUL : ascii := ascii_of_nat 0.
Definition TAB : ascii := ascii_of_nat 9.

Fixpoint plain (s : string) : bool :=
  match s with
  | String a s' => negb (Ascii.eqb a CR) && negb (Ascii.eqb a NUL) && plain s'
  | EmptyString => true
  end.

(** A field that [read_csv] gives back as the string that [to_csv]
    was given, whatever else its column holds: no marker of a missing
    value, no number, no boolean, and a plain text. *)
Definition keeps_text (s : string) : bool :=
  negb (is_na s) && negb (is_number s) && negb (is_bool s) && plain s.

(** The type [read_csv] gives a column, from its fields.  A column of
    integer literals without a missing value is one of integers when
    they all fit into 64 bits (signed, or else unsigned), and is left
    as text when they do not; a column whose fields (missing ones
    apart) are all numbers is one of floating-point numbers, one whose
    fields are all booleans is boolean, and any other column keeps its
    fields as strings. *)
Inductive dtype := DInt | DFloat | DBool | DObject.

Definition infer_dtype (fields : list string) : dtype :=
  let vals := filter (fun f => is_na f = false) fields in
  if forallb is_int vals && negb (bool_decide (vals = [])) then
    let zs := omap int_literal vals in
    let no_na := (length vals =? length fields)%nat in
    if forallb in_int64 zs then (if no_na then DInt else DFloat)
    else if forallb in_uint64 zs && no_na then DInt
    else DObject
  else if forallb is_number vals then DFloat
  else if forallb is_bool vals then DBool
  else DObject.

(** Decimal digits of an integer, as [to_csv] writes it. *)
Fixpoint digits_of_uint (d : Decimal.uint) : string :=
  match d with
  | Decimal.Nil => ""
  | Decimal.D0 d => String "0" (digits_of_uint d)
  | Decimal.D1 d => String "1" (digits_of_uint d)
  | Decimal.D2 d => String "2" (digits_of_uint d)
  | Decimal.D3 d => String "3" (digits_of_uint d)
  | Decimal.D4 d => String "4" (digits_of_uint d)
  | Decimal.D5 d => String "5" (digits_of_uint d)
  | Decimal.D6 d => String "6" (digits_of_uint d)
  | Decimal.D7 d => String "7" (digits_of_uint d)
  | Decimal.D8 d => String "8" (digits_of_uint d)
  | Decimal.D9 d => String "9" (digits_of_uint d)
  end.

Definition str_of_int (z : Z) : string :=
  match Z.to_int z with
  | Decimal.Pos d => digits_of_uint d
  | Decimal.Neg d => String "-" (digits_of_uint d)
  end.

(** The floating-point number nearest to an integer, by the literal
    that pandas writes for it when the integer is one of those that
    are floating-point numbers themselves (5 is written 5.0), and by
    the digits of the integer otherwise. *)
Definition float_of_int (z : Z) : cell :=
  CFloat (if Z.abs z <=? 2 ^ 53 then str_of_int z +:+ ".0" else str_of_int z).

(** The floating-point number of a field: an integer literal is the
    number of its integer (-0 is the negative zero), any other literal
    is kept. *)
Definition float_of_field (f : string) : cell :=
  match int_literal f with
  | Some z =>
      if (z =? 0) && is_minus (skip_spaces f) then CFloat "-0.0"
      else float_of_int z
  | None => CFloat f
  end.

Definition parse_field (d : dtype) (f : string) : cell :=
  if is_na f then CNaN
  else match d with
       | DObject => CStr f
       | DInt => match int_literal f with
                 | Some z => CInt z
                 | None => CStr f
                 end
       | DFloat => float_of_field f
       | DBool => CBool (String.eqb (lower f) "true")
       end.

(** The text [to_csv] writes for a cell.  For a floating-point number
    it is the literal held, where pandas writes the shortest literal
    of that number (5.5 for 5.50). *)
Definition text_of_cell (c : cell) : string :=
  match c with
  | CStr s => s
  | CInt z => str_of_int z
  | CFloat lit => lit
  | CBool b => if b then "True" else "False"
  | CNaN => ""
  | CNone => ""
  end.

(** ** The table

    A [DataFrame] has its column names in order and its rows; a row
    gives a cell to a column name, and a column the row says nothing
    about holds a missing value there. *)

Record DataFrame := {
  columns : list string;
  rows : list (gmap string cell)
}.

Definition row_get (r : gmap string cell) (c : string) : cell :=
  default CNaN (r !! c).

(** [pd.DataFrame(columns=cols)] *)
Definition empty_frame (cols : list string) : DataFrame :=
  {| columns := cols; rows := [] |}.

(** [df[c].values]; [KeyError] when there is no such column. *)
Definition df_column (c : string) (df : DataFrame) : result (list cell) :=
  if bool_decide (c ∈ columns df)
  then Ok (map (fun r => row_get r c) (rows df))
  else Raise (KeyError c).

(** [x == v] for an element [x] of the array of a column and a Python
    value [v] that is a string or None, as [v in array] compares. *)
Definition cell_is (v : cell) (x : cell) : bool :=
  match v, x with
  | CStr a, CStr b => String.eqb a b
  | CNone, CNone => true
  | _, _ => false
  end.

(** [df[key] == v] at a row: pandas compares a column with None to
    false everywhere. *)
Definition mask_is (v : cell) (x : cell) : bool :=
  match v, x with
  | CStr a, CStr b => String.eqb a b
  | _, _ => false
  end.

(** [df.loc[df[key] == v, c] = x]: the column [c] is added when the
    table does not have it. *)
Definition loc_set (key : string) (v : cell) (c : string) (x : cell)
    (df : DataFrame) : DataFrame :=
  {| columns := if bool_decide (c ∈ columns df) then columns df
                else columns df ++ [c];
     rows := map (fun r => if mask_is v (row_get r key)
                           then <[c := x]> r else r) (rows df) |}.

(** The types of the columns in memory, as far as appending a row
    depends on them.  A column that holds integers and nothing else is
    one of integers, a column that holds floating-point numbers and
    missing values and nothing else is one of floating-point numbers;
    a table without rows has no such column. *)
Definition is_int_cell (c : cell) : bool :=
  match c with CInt _ => true | _ => false end.

Definition is_float_cell (c : cell) : bool :=
  match c with CFloat _ | CNaN => true | _ => false end.

Definition int_column (c : string) (df : DataFrame) : bool :=
  negb (bool_decide (rows df = [])) &&
  forallb (fun r => is_int_cell (row_get r c)) (rows df).

Definition float_column (c : string) (df : DataFrame) : bool :=
  negb (bool_decide (rows df = [])) &&
  forallb (fun r => is_float_cell (row_get r c)) (rows df).

Definition to_float (c : cell) : cell :=
  match c with
  | CInt z => float_of_int z
  | _ => c
  end.

(** The columns of integers for which the dict [d] has no value: the
    new row has a missing value there, which makes floating-point
    numbers of the integers of the column. *)
Definition upcast_columns (d : list (string * cell)) (df : DataFrame)
    : list string :=
  filter (fun c => (c ∉ map fst d) /\ int_column c df = true) (columns df).

Definition upcast_row (cs : list string) (r : gmap string cell)
    : gmap string cell :=
  foldr (fun c r' => match r !! c with
                     | Some (CInt z) => <[c := float_of_int z]> r'
                     | _ => r'
                     end) r cs.

(** The row for the dict [d]: an integer that goes into a column of
    floating-point numbers becomes one of them. *)
Definition new_row (d : list (string * cell)) (df : DataFrame)
    : gmap string cell :=
  list_to_map
    (map (fun kx => (fst kx,
                     if float_column (fst kx) df then to_float (snd kx)
                     else snd kx)) d).

(** [df.append(d, ignore_index=True)] for a dict [d] given by its items
    in the sorted order of its keys: the keys that the table lacks
    become new columns, after the ones it has. *)
Definition append (d : list (string * cell)) (df : DataFrame) : DataFrame :=
  {| columns := columns df ++
                filter (fun k => k ∉ columns df) (map fst d);
     rows := map (upcast_row (upcast_columns d df)) (rows df)
             ++ [new_row d df] |}.

(** ** The file of the table

    A delimited text file is held as the records that [read_csv] finds
    in it, the header first, each record being the list of its fields;
    an empty line is the record without fields.  [to_csv] puts quotes
    around a field where the reader needs them to find the field
    again, but for a carriage return: the records of a table are those
    given here when its texts are plain. *)

Definition csv_text := list (list string).

(** [df.to_csv(path, index=False)] *)
Definition to_csv (df : DataFrame) : csv_text :=
  columns df ::
  map (fun r => map (fun c => text_of_cell (row_get r c)) (columns df))
      (rows df).

(** A line that [read_csv] skips: an empty line, or a line of nothing
    but spaces and tabs. *)
Fixpoint all_blank (s : string) : bool :=
  match s with
  | String a s' => (Ascii.eqb a " "%char || Ascii.eqb a TAB) && all_blank s'
  | EmptyString => true
  end.

Definition is_blank_line (rec : list string) : bool :=
  match rec with
  | [] => true
  | [f] => negb (String.eqb f "") && all_blank f
  | _ => false
  end.

(** The names of the columns, from those of the header: an empty name
    becomes Unnamed: i at position i, and a name that has occurred k
    times before becomes name.k (and so on, should that name have
    occurred as well); [counts] has the number of occurrences of the
    names so far.  The loop of pandas ends because the name gets
    longer each time round; here it is given as many rounds as the
    header has names, and one more. *)
Fixpoint dedup_name (fuel : nat) (counts : gmap string nat) (name : string)
    : string * gmap string nat :=
  match fuel with
  | O => (name, counts)
  | S fuel' =>
      match default 0%nat (counts !! name) with
      | O => (name, counts)
      | S k =>
          dedup_name fuel' (<[name := S (S k)]> counts)
                     (name +:+ "." +:+ str_of_int (Z.of_nat (S k)))
      end
  end.

Fixpoint mangle_names (fuel i : nat) (counts : gmap string nat)
    (names : list string) : list string :=
  match names with
  | [] => []
  | name :: rest =>
      let name0 := if String.eqb name ""
                   then "Unnamed: " +:+ str_of_int (Z.of_nat i) else name in
      let '(name1, counts1) := dedup_name fuel counts name0 in
      name1 ::
      mangle_names fuel (S i)
                   (<[name1 := S (default 0%nat (counts1 !! name1))]> counts1)
                   rest
  end.

Definition column_names (header : list string) : list string :=
  mangle_names (S (length header)) 0 ∅ header.

(** A record that is shorter than the header is filled up with empty
    fields. *)
Definition field_at (rec : list string) (j : nat) : string :=
  default "" (rec !! j).

Definition column_fields (recs : list (list string)) (j : nat) : list string :=
  map (fun rec => field_at rec j) recs.

(** The number of fields the tokenizer expects of a record: that of
    the header, or of the first record when that one is longer. *)
Definition expected_fields (header : list string) (recs : list (list string))
    : nat :=
  match recs with
  | [] => length header
  | first :: _ => Nat.max (length header) (length first)
  end.

(** The row of a record, its first [k] fields being left out. *)
Definition read_record (names : list string) (recs : list (list string))
    (k : nat) (rec : list string) : gmap string cell :=
  list_to_map
    (imap (fun j c =>
             (c, parse_field (infer_dtype (column_fields recs (k + j)))
                             (field_at rec (k + j))))
          names).

(** [pd.read_csv(path)] on the text of the file.  Blank lines are
    skipped; a file without a header line has no columns to parse, and
    a record with more fields than expected is a tokenizing error.
    When the records have more fields than the header has names,
    pandas takes the leading fields for the index of the rows, of
    which the program makes no use. *)
Definition read_csv (t : csv_text) : result DataFrame :=
  match filter (fun rec => is_blank_line rec = false)
               (t : list (list string)) with
  | [] => Raise EmptyDataError
  | header :: recs =>
      let n := expected_fields header recs in
      if forallb (fun rec => (length rec <=? n)%nat) recs
      then Ok {| columns := column_names header;
                 rows := map (read_record (column_names header) recs
                                          (n - length header))
                             recs |}
      else Raise ParserError
  end.

(** ** Names of image files *)

(** [s.endswith(suffix)] *)
Fixpoint endswith (suffix s : string) : bool :=
  String.eqb s suffix ||
  match s with
  | String _ s' => endswith suffix s'
  | EmptyString => false
  end.

(** The test by which [load_image_files] takes a file of the directory
    of the images into [image_files]. *)
Definition is_image_file (file : string) : bool :=
  endswith ".jpg" file || endswith ".png" file.

Fixpoint last_char (s : string) : option ascii :=
  match s with
  | EmptyString => None
  | String a s' =>
      match s' with
      | EmptyString => Some a
      | String _ _ => last_char s'
      end
  end.

(** ** The labeler and its world

    The fields of the [Labeler] object as [__init__] sets them, the
    list box of the labels ([label_list]: its items and the indices
    that are selected), and the files: the tables by path, the images
    by path, the paths at which a file can be written (the directory
    is there and may be written to), and the log of the tables that
    [to_csv] has written, each with its path. *)

Record World := {
  door_id : Z;
  path_to_images : string;
  path_to_csv : string;
  image_files : list string;
  labels : list string;
  current_image : option string;
  current_image_index : Z;
  current_label : option string;
  current_label_index : Z;
  doors_df : DataFrame;
  image : option Image;
  label_list_items : list string;
  label_list_selection : list Z;
  csv_files : gmap string csv_text;
  image_store : gmap string Image;
  can_write : string -> bool;
  written : list (string * DataFrame)
}.

Definition set_current_image (v : option string) (w : World) : World :=
  {| door_id := door_id w; path_to_images := path_to_images w;
     path_to_csv := path_to_csv w; image_files := image_files w;
     labels := labels w; current_image := v;
     current_image_index := current_image_index w;
     current_label := current_label w;
     current_label_index := current_label_index w;
     doors_df := doors_df w; image := image w;
     label_list_items := label_list_items w;
     label_list_selection := label_list_selection w;
     csv_files := csv_files w; image_store := image_store w;
     can_write := can_write w; written := written w |}.

Definition set_current_image_index (v : Z) (w : World) : World :=
  {| door_id := door_id w; path_to_images := path_to_images w;
     path_to_csv := path_to_csv w; image_files := image_files w;
     labels := labels w; current_image := current_image w;
     current_image_index := v;
     current_label := current_label w;
     current_label_index := current_label_index w;
     doors_df := doors_df w; image := image w;
     label_list_items := label_list_items w;
     label_list_selection := label_list_selection w;
     csv_files := csv_files w; image_store := image_store w;
     can_write := can_write w; written := written w |}.

Definition set_current_label (v : option string) (w : World) : World :=
  {| door_id := door_id w; path_to_images := path_to_images w;
     path_to_csv := path_to_csv w; image_files := image_files w;
     labels := labels w; current_image := current_image w;
     current_image_index := current_image_index w;
     current_label := v;
     current_label_index := current_label_index w;
     doors_df := doors_df w; image := image w;
     label_list_items := label_list_items w;
     label_list_selection := label_list_selection w;
     csv_files := csv_files w; image_store := image_store w;
     can_write := can_write w; written := written w |}.

Definition set_current_label_index (v : Z) (w : World) : World :=
  {| door_id := door_id w; path_to_images := path_to_images w;
     path_to_csv := path_to_csv w; image_files := image_files w;
     labels := labels w; current_image := current_image w;
     current_image_index := current_image_index w;
     current_label := current_label w;
     current_label_index := v;
     doors_df := doors_df w; image := image w;
     label_list_items := label_list_items w;
     label_list_selection := label_list_selection w;
     csv_files := csv_files w; image_store := image_store w;
     can_write := can_write w; written := written w |}.

Definition set_doors_df (v : DataFrame) (w : World) : World :=
  {| door_id := door_id w; path_to_images := path_to_images w;
     path_to_csv := path_to_csv w; image_files := image_files w;
     labels := labels w; current_image := current_image w;
     current_image_index := current_image_index w;
     current_label := current_label w;
     current_label_index := current_label_index w;
     doors_df := v; image := image w;
     label_list_items := label_list_items w;
     label_list_selection := label_list_selection w;
     csv_files := csv_files w; image_store := image_store w;
     can_write := can_write w; written := written w |}.

Definition set_image (v : option Image) (w : World) : World :=
  {| door_id := door_id w; path_to_images := path_to_images w;
     path_to_csv := path_to_csv w; image_files := image_files w;
     labels := labels w; current_image := current_image w;
     current_image_index := current_image_index w;
     current_label := current_label w;
     current_label_index := current_label_index w;
     doors_df := doors_df w; image := v;
     label_list_items := label_list_items w;
     label_list_selection := label_list_selection w;
     csv_files := csv_files w; image_store := image_store w;
     can_write := can_write w; written := written w |}.

Definition set_label_list_items (v : list string) (w : World) : World :=
  {| door_id := door_id w; path_to_images := path_to_images w;
     path_to_csv := path_to_csv w; image_files := image_files w;
     labels := labels w; current_image := current_image w;
     current_image_index := current_image_index w;
     current_label := current_label w;
     current_label_index := current_label_index w;
     doors_df := doors_df w; image := image w;
     label_list_items := v;
     label_list_selection := label_list_selection w;
     csv_files := csv_files w; image_store := image_store w;
     can_write := can_write w; written := written w |}.

Definition set_label_list_selection (v : list Z) (w : World) : World :=
  {| door_id := door_id w; path_to_images := path_to_images w;
     path_to_csv := path_to_csv w; image_files := image_files w;
     labels := labels w; current_image := current_image w;
     current_image_index := current_image_index w;
     current_label := current_label w;
     current_label_index := current_label_index w;
     doors_df := doors_df w; image := image w;
     label_list_items := label_list_items w;
     label_list_selection := v;
     csv_files := csv_files w; image_store := image_store w;
     can_write := can_write w; written := written w |}.

(** Writing a table to a file replaces the text of the file by that of
    the table, and is logged. *)
Definition write_file (path : string) (df : DataFrame) (w : World) : World :=
  {| door_id := door_id w; path_to_images := path_to_images w;
     path_to_csv := path_to_csv w; image_files := image_files w;
     labels := labels w; current_image := current_image w;
     current_image_index := current_image_index w;
     current_label := current_label w;
     current_label_index := current_label_index w;
     doors_df := doors_df w; image := image w;
     label_list_items := label_list_items w;
     label_list_selection := label_list_selection w;
     csv_files := <[path := to_csv df]> (csv_files w);
     image_store := image_store w;
     can_write := can_write w;
     written := written w ++ [(path, df)] |}.

(** *** Handlers: state and exceptions *)

Definition M (A : Type) : Type := World -> result A * World.

Definition ret {A} (a : A) : M A := fun w => (Ok a, w).

Definition bind {A B} (m : M A) (k : A -> M B) : M B :=
  fun w => match m w with
           | (Ok a, w') => k a w'
           | (Raise e, w') => (Raise e, w')
           end.

Definition get : M World := fun w => (Ok w, w).
Definition modify (f : World -> World) : M unit := fun w => (Ok tt, f w).
Definition lift {A} (r : result A) : M A := fun w => (r, w).

Notation "x <- m ;; k" := (bind m (fun x => k))
  (at level 100, m at next level, right associativity).
Notation "m ;; k" := (bind m (fun _ => k))
  (at level 100, right associativity).

(** The world a handler leaves behind; Tk reports an exception raised
    by a handler and goes on with the next event. *)
Definition exec {A} (m : M A) (w : World) : World := snd (m w).
Definition outcome {A} (m : M A) (w : World) : result A := fst (m w).

(** [n] runs of a handler, one after the other. *)
Fixpoint repeat_exec {A} (n : nat) (m : M A) (w : World) : World :=
  match n with
  | O => w
  | S n' => repeat_exec n' m (exec m w)
  end.

(** *** The list box of the labels *)

Definition selection_clear_all : M unit :=
  modify (set_label_list_selection []).

Fixpoint insert_sorted (i : Z) (sel : list Z) : list Z :=
  match sel with
  | [] => [i]
  | j :: sel' =>
      if i <? j then i :: sel
      else if i =? j then sel
      else j :: insert_sorted i sel'
  end.

(** [selection_set(i)]: an index that names no item selects nothing. *)
Definition selection_set (i : Z) : M unit :=
  modify (fun w =>
    if (0 <=? i) && (i <? Z.of_nat (length (label_list_items w)))
    then set_label_list_selection (insert_sorted i (label_list_selection w)) w
    else w).

Definition curselection : M (list Z) :=
  w <- get ;; ret (label_list_selection w).

(** ** The methods of [Labeler] *)

Definition load_csv : M unit :=
  w <- get ;;
  match csv_files w !! path_to_csv w with
  | Some text =>
      df <- lift (read_csv text) ;;
      modify (set_doors_df df)
  | None =>
      modify (set_doors_df (empty_frame ["image"; "label"; "door_id"]))
  end.

(** [Image.open]: the file has to be there. *)
Definition image_open (path : string) : M Image :=
  w <- get ;;
  match image_store w !! path with
  | Some im => ret im
  | None => lift (Raise (FileNotFoundError path))
  end.

(** [load_image]; the canvas and the geometry of the window are left
    out, the prepared image is what is displayed. *)
Definition load_image : M unit :=
  w <- get ;;
  name <- lift (py_index (image_files w) (current_image_index w)) ;;
  modify (set_current_image (Some name)) ;;
  im <- image_open (path_join (path_to_images w) name) ;;
  modify (set_image (Some im)) ;;
  im' <- lift (prepare_image im) ;;
  modify (set_image (Some im')).

(** The cell for the name of the current image. *)
Definition cell_of_name (name : option string) : cell :=
  match name with
  | Some s => CStr s
  | None => CNone
  end.

(** [df.to_csv(path, index=False)] on the file system: [OSError] when
    no file can be written at the path, and nothing is written
    then. *)
Definition to_csv_file (path : string) (df : DataFrame) : M unit :=
  w <- get ;;
  if can_write w path then modify (write_file path df)
  else lift (Raise (OSError path)).

(** [save]: nothing without a selected label; else the rows of the
    current image get the label, or a row is added for it, and the
    whole table is written to [path_to_csv]. *)
Definition save : M unit :=
  w <- get ;;
  match current_label w with
  | None => ret tt
  | Some lbl =>
      let img := cell_of_name (current_image w) in
      vals <- lift (df_column "image" (doors_df w)) ;;
      (if existsb (cell_is img) vals
       then modify (set_doors_df
                      (loc_set "image" img "label" (CStr lbl) (doors_df w)))
       else modify (set_doors_df
                      (append [("door_id", CInt (door_id w));
                               ("image", img);
                               ("label", CStr lbl)] (doors_df w)))) ;;
      w' <- get ;;
      to_csv_file (path_to_csv w') (doors_df w')
  end.

Definition previous_image : M unit :=
  save ;;
  modify (fun w => set_current_image_index (current_image_index w - 1) w) ;;
  w <- get ;;
  (if current_image_index w <? 0
   then modify (set_current_image_index (Z.of_nat (length (image_files w)) - 1))
   else ret tt) ;;
  load_image.

Definition next_image (no_save : bool) : M unit :=
  (if negb no_save then save else ret tt) ;;
  modify (fun w => set_current_image_index (current_image_index w + 1) w) ;;
  w <- get ;;
  (if current_image_index w >=? Z.of_nat (length (image_files w))
   then modify (set_current_image_index 0)
   else ret tt) ;;
  load_image.

Definition skip_image : M unit := next_image true.

Definition previous_label : M unit :=
  modify (fun w => set_current_label_index (current_label_index w - 1) w) ;;
  w <- get ;;
  (if current_label_index w <? 0
   then modify (set_current_label_index (Z.of_nat (length (labels w)) - 1))
   else ret tt) ;;
  selection_clear_all ;;
  w <- get ;;
  selection_set (current_label_index w) ;;
  lbl <- lift (py_index (labels w) (current_label_index w)) ;;
  modify (set_current_label (Some lbl)).

Definition next_label : M unit :=
  modify (fun w => set_current_label_index (current_label_index w + 1) w) ;;
  w <- get ;;
  (if current_label_index w >=? Z.of_nat (length (labels w))
   then modify (set_current_label_index 0)
   else ret tt) ;;
  selection_clear_all ;;
  w <- get ;;
  selection_set (current_label_index w) ;;
  lbl <- lift (py_index (labels w) (current_label_index w)) ;;
  modify (set_current_label (Some lbl)).

Definition load_labels : M unit :=
  w <- get ;;
  modify (set_label_list_items (labels w)).

Definition select_label : M unit :=
  sel <- curselection ;;
  i <- lift (py_index sel 0) ;;
  modify (set_current_label_index i) ;;
  w <- get ;;
  lbl <- lift (py_index (labels w) i) ;;
  modify (set_current_label (Some lbl)).

(** A click on item [i] of the list box, which takes one selection at a
    time: Tk selects the item and calls the handler bound to the
    selection event. *)
Definition click_label (i : nat) : M unit :=
  w <- get ;;
  if (i <? length (label_list_items w))%nat
  then modify (set_label_list_selection [Z.of_nat i]) ;; select_label
  else ret tt.

(** ** Vocabulary of the properties *)

(** Two images, one smaller than the crop rectangle and one that
    contains it. *)
Definition small_image : Image :=
  {| width := 100; height := 100; getpixel := fun _ _ => 7 |}.

Definition large_image : Image :=
  {| width := 1920; height := 1440; getpixel := fun x y => x + 2000 * y |}.

(** The step of an index through a sequence of length [n], as the
    handlers compute it. *)
Definition forward (n i : Z) : Z := if i + 1 >=? n then 0 else i + 1.
Definition backward (n i : Z) : Z := if i - 1 <? 0 then n - 1 else i - 1.

(** [__init__], once the image files have been listed and shuffled
    (they are [image_files], in their shuffled order) and before the
    event loop: the table is loaded, the list box is filled, the first
    image is shown. *)
Definition startup : M unit := load_csv ;; load_labels ;; load_image.

(** A labeler of three images with the labels of the program, before
    [startup]; there is no table file yet. *)
Definition fresh_world : World :=
  {| door_id := 1;
     path_to_images := "actions";
     path_to_csv := "doors/doors.csv";
     image_files := ["b.jpg"; "a.jpg"; "c.jpg"];
     labels := ["open"; "closed"];
     current_image := None;
     current_image_index := 0;
     current_label := None;
     current_label_index := 0;
     doors_df := empty_frame [];
     image := None;
     label_list_items := [];
     label_list_selection := [];
     csv_files := ∅;
     image_store := {[ "actions/a.jpg" := large_image;
                       "actions/b.jpg" := large_image;
                       "actions/c.jpg" := small_image ]};
     can_write := fun _ => true;
     written := [] |}.

(** The table after the current label has been stored for the image
    [img]: the rows of [img] get the label, or a row is added. *)
Definition upserted (img : cell) (lbl : string) (group : Z) (df : DataFrame)
    : DataFrame :=
  if existsb (cell_is img) (map (fun r => row_get r "image") (rows df))
  then loc_set "image" img "label" (CStr lbl) df
  else append [("door_id", CInt group); ("image", img); ("label", CStr lbl)] df.

(** [save] raises: a label is selected, and the table has no [image]
    column (KeyError) or its file cannot be written (OSError). *)
Definition save_raises (w : World) : bool :=
  match current_label w with
  | None => false
  | Some _ => negb (bool_decide ("image" ∈ columns (doors_df w)))
              || negb (can_write w (path_to_csv w))
  end.

(** The world after [save] has stored the label in the table, and
    after it has written the table as well. *)
Definition stored (lbl : string) (w : World) : World :=
  set_doors_df (upserted (cell_of_name (current_image w)) lbl (door_id w)
                         (doors_df w)) w.

Definition saved (lbl : string) (w : World) : World :=
  write_file (path_to_csv w) (doors_df (stored lbl w)) (stored lbl w).

(** One step through the images: the index, the list of images and
    whether [save] raises. *)
Definition fstep (r : bool) (n i : Z) : Z := if r then i else forward n i.
Definition bstep (r : bool) (n i : Z) : Z := if r then i else backward n i.

(** The current image index is an index into the image list and the
    current label index is an index into the label list. *)
Definition indices_valid (w : World) : Prop :=
  0 <= current_image_index w < Z.of_nat (length (image_files w)) /\
  0 <= current_label_index w < Z.of_nat (length (labels w)).

(** The list box shows the labels ([load_labels]) and what is selected
    in it are items of it. *)
Definition label_list_ok (w : World) : Prop :=
  label_list_items w = labels w /\
  Forall (fun i => 0 <= i < Z.of_nat (length (label_list_items w)))
         (label_list_selection w).

Definition nav_inv (w : World) : Prop := indices_valid w /\ label_list_ok w.

(** What the user can do to move: the keys and buttons for the images,
    the keys for the labels, a click on a label, and the handler of the
    selection event on its own. *)
Inductive command :=
| Next | Previous | Skip | LabelUp | LabelDown
| Click (i : nat) | SelectLabel.

Definition handler (c : command) : M unit :=
  match c with
  | Next => next_image false
  | Previous => previous_image
  | Skip => skip_image
  | LabelUp => previous_label
  | LabelDown => next_label
  | Click i => click_label i
  | SelectLabel => select_label
  end.

Fixpoint run (cs : list command) (w : World) : World :=
  match cs with
  | [] => w
  | c :: cs' => run cs' (exec (handler c) w)
  end.

(** A session: the user skips b.jpg, clicks the label open for a.jpg
    and goes back, which saves a.jpg as open and shows b.jpg again. *)
Definition demo_world : World :=
  run [Skip; Click 0; Previous] (exec startup fresh_world).

(** The table of that session. *)
Definition demo_frame : DataFrame :=
  {| columns := ["image"; "label"; "door_id"];
     rows := [ {[ "image" := CStr "a.jpg"; "label" := CStr "open";
                  "door_id" := CInt 1 ]} ] |}.

(** The labeler started with NA ("not applicable") among its labels. *)
Definition na_world : World :=
  exec startup
       {| door_id := 1;
          path_to_images := "actions";
          path_to_csv := "doors/doors.csv";
          image_files := ["b.jpg"; "a.jpg"; "c.jpg"];
          labels := ["open"; "NA"];
          current_image := None;
          current_image_index := 0;
          current_label := None;
          current_label_index := 0;
          doors_df := empty_frame [];
          image := None;
          label_list_items := [];
          label_list_selection := [];
          csv_files := ∅;
          image_store := {[ "actions/a.jpg" := large_image;
                            "actions/b.jpg" := large_image;
                            "actions/c.jpg" := small_image ]};
          can_write := fun _ => true;
          written := [] |}.

(** The rows of the image named [name]. *)
Definition rows_for (name : string) (df : DataFrame) : list (gmap string cell) :=
  filter (fun r => cell_is (CStr name) (row_get r "image") = true) (rows df).

(** The table has a row for [img], the test by which [save] takes its
    branch. *)
Definition has_row (img : cell) (df : DataFrame) : bool :=
  existsb (cell_is img) (map (fun r => row_get r "image") (rows df)).

Definition one_row_per_image (df : DataFrame) : Prop :=
  forall name, (length (rows_for name df) <= 1)%nat.

(** Selecting the label [lbl] and saving it for the current image. *)
Definition relabel (lbl : string) (w : World) : World :=
  exec save (set_current_label (Some lbl) w).

(** A table file in which the image a.jpg has two records. *)
Definition repeated_text : csv_text :=
  [ ["image"; "label"; "door_id"];
    ["a.jpg"; "open"; "1"];
    ["a.jpg"; "closed"; "1"] ].

Definition repeated_world : World :=
  {| door_id := 1;
     path_to_images := "actions";
     path_to_csv := "doors/doors.csv";
     image_files := ["a.jpg"];
     labels := ["open"; "closed"];
     current_image := Some "a.jpg";
     current_image_index := 0;
     current_label := None;
     current_label_index := 0;
     doors_df := empty_frame [];
     image := None;
     label_list_items := ["open"; "closed"];
     label_list_selection := [];
     csv_files := {[ "doors/doors.csv" := repeated_text ]};
     image_store := {[ "actions/a.jpg" := large_image ]};
     can_write := fun _ => true;
     written := [] |}.

(** The record [to_csv] writes for a row, and the row [read_csv] makes
    of it when it reads the file of the table [df]. *)
Definition render (df : DataFrame) (r : gmap string cell) : list string :=
  map (fun c => text_of_cell (row_get r c)) (columns df).

Definition reload (df : DataFrame) (r : gmap string cell) : gmap string cell :=
  read_record (columns df) (map (render df) (rows df)) 0 (render df r).

(** The texts [to_csv] writes in the column [k]. *)
Definition column_texts (k : string) (df : DataFrame) : list string :=
  map (fun r => text_of_cell (row_get r k)) (rows df).

(** A table as [read_csv] returns it from a file of plain texts, and
    as [save] keeps it: every column has a name, its own, the names and
    the strings in the cells are plain texts, and a floating-point
    cell holds a literal of a number. *)
Definition cell_ok (c : cell) : bool :=
  match c with
  | CStr s => plain s
  | CFloat lit => is_number lit
  | _ => true
  end.

Definition table_ok (df : DataFrame) : Prop :=
  NoDup (columns df) /\
  Forall (fun c => c <> "" /\ plain c = true) (columns df) /\
  Forall (map_Forall (fun _ c => cell_ok c = true)) (rows df).

Global Instance table_ok_dec (df : DataFrame) : Decision (table_ok df).
Proof. unfold table_ok. apply _. Defined.

(** The cell that a row of another image may have after [save] where
    it had [c]: the same cell, or, for an integer, the floating-point
    number of it. *)
Definition same_or_float (c c' : option cell) : Prop :=
  c' = c \/ exists z, c = Some (CInt z) /\ c' = Some (float_of_int z).

(** A table file with a column of notes, which are integers, and the
    labeler started on it, showing b.jpg. *)
Definition notes_text : csv_text :=
  [ ["image"; "label"; "door_id"; "note"];
    ["a.jpg"; "open"; "1"; "5"] ].

Definition notes_world : World :=
  exec startup
    {| door_id := 1;
       path_to_images := "actions";
       path_to_csv := "doors/doors.csv";
       image_files := ["b.jpg"; "a.jpg"; "c.jpg"];
       labels := ["open"; "closed"];
       current_image := None;
       current_image_index := 0;
       current_label := None;
       current_label_index := 0;
       doors_df := empty_frame [];
       image := None;
       label_list_items := [];
       label_list_selection := [];
       csv_files := {[ "doors/doors.csv" := notes_text ]};
       image_store := {[ "actions/a.jpg" := large_image;
                         "actions/b.jpg" := large_image;
                         "actions/c.jpg" := small_image ]};
       can_write := fun _ => true;
       written := [] |}.

(** ** Further vocabulary *)

(** The table as it is in memory is what was written last, to the
    file of the table. *)
Definition table_is_written (w : World) : Prop :=
  last (written w) = Some (path_to_csv w, doors_df w).

(** A labeler whose table file cannot be written (the directory of
    the path is not there), the user having clicked the label open. *)
Definition no_directory_world : World :=
  exec (click_label 0)
    (exec startup
       {| door_id := 1;
          path_to_images := "actions";
          path_to_csv := "doors/doors.csv";
          image_files := ["b.jpg"; "a.jpg"; "c.jpg"];
          labels := ["open"; "closed"];
          current_image := None;
          current_image_index := 0;
          current_label := None;
          current_label_index := 0;
          doors_df := empty_frame [];
          image := None;
          label_list_items := [];
          label_list_selection := [];
          csv_files := ∅;
          image_store := {[ "actions/a.jpg" := large_image;
                            "actions/b.jpg" := large_image;
                            "actions/c.jpg" := small_image ]};
          can_write := fun _ => false;
          written := [] |}).

(** A labeler started on a table file that has no image column, the
    user having clicked the label open. *)
Definition no_image_column_world : World :=
  exec (click_label 0)
    (exec startup
       {| door_id := 1;
          path_to_images := "actions";
          path_to_csv := "doors/doors.csv";
          image_files := ["b.jpg"; "a.jpg"; "c.jpg"];
          labels := ["open"; "closed"];
          current_image := None;
          current_image_index := 0;
          current_label := None;
          current_label_index := 0;
          doors_df := empty_frame [];
          image := None;
          label_list_items := [];
          label_list_selection := [];
          csv_files := {[ "doors/doors.csv" :=
                            [ ["name"; "label"]; ["a.jpg"; "open"] ] ]};
          image_store := {[ "actions/a.jpg" := large_image;
                            "actions/b.jpg" := large_image;
                            "actions/c.jpg" := small_image ]};
          can_write := fun _ => true;
          written := [] |}).

(** A labeler constructed without labels (the default), started. *)
Definition no_labels_world : World :=
  exec startup
    {| door_id := 1;
       path_to_images := "actions";
       path_to_csv := "doors/doors.csv";
       image_files := ["b.jpg"; "a.jpg"; "c.jpg"];
       labels := [];
       current_image := None;
       current_image_index := 0;
       current_label := None;
       current_label_index := 0;
       doors_df := empty_frame [];
       image := None;
       label_list_items := [];
       label_list_selection := [];
       csv_files := ∅;
       image_store := {[ "actions/a.jpg" := large_image;
                         "actions/b.jpg" := large_image;
                         "actions/c.jpg" := small_image ]};
       can_write := fun _ => true;
       written := [] |}.




(** ** Listing the images and binding the keys *)

Definition set_image_files (v : list string) (w : World) : World :=
  {| door_id := door_id w; path_to_images := path_to_images w;
     path_to_csv := path_to_csv w; image_files := v;
     labels := labels w; current_image := current_image w;
     current_image_index := current_image_index w;
     current_label := current_label w;
     current_label_index := current_label_index w;
     doors_df := doors_df w; image := image w;
     label_list_items := label_list_items w;
     label_list_selection := label_list_selection w;
     csv_files := csv_files w; image_store := image_store w;
     can_write := can_write w; written := written w |}.

Fixpoint for_each {A} (l : list A) (body : A -> M unit) : M unit :=
  match l with
  | [] => ret tt
  | x :: l' => body x ;; for_each l' body
  end.

(** [load_image_files]: [listing] is what [os.listdir] returns for the
    directory of the images, and [shuffle] the rearrangement that
    [random.shuffle] happens to make. *)
Definition load_image_files (listing : list string)
    (shuffle : list string -> list string) : M unit :=
  modify (set_image_files []) ;;
  for_each listing (fun file =>
    if endswith ".jpg" file || endswith ".png" file
    then modify (fun w => set_image_files (image_files w ++ [file]) w)
    else ret tt) ;;
  modify (fun w => set_image_files (shuffle (image_files w)) w).

(** The methods that [__init__] binds to keys. *)
Inductive callback :=
| OnPreviousImage | OnNextImage | OnPreviousLabel | OnNextLabel | OnQuit.

(** A Python dict from key names to callbacks, in the order of
    insertion. *)
Fixpoint dict_get (k : string) (d : list (string * callback))
    : option callback :=
  match d with
  | [] => None
  | (k', v) :: d' => if String.eqb k' k then Some v else dict_get k d'
  end.

Fixpoint dict_set (k : string) (v : callback) (d : list (string * callback))
    : list (string * callback) :=
  match d with
  | [] => [(k, v)]
  | (k', v') :: d' =>
      if String.eqb k' k then (k', v) :: d' else (k', v') :: dict_set k v d'
  end.

Definition upper_ascii (a : ascii) : ascii :=
  let n := nat_of_ascii a in
  if ((97 <=? n) && (n <=? 122))%nat then ascii_of_nat (n - 32) else a.

(** [s.upper()], for a string of ASCII characters. *)
Fixpoint upper (s : string) : string :=
  match s with
  | String a s' => String (upper_ascii a) (upper s')
  | EmptyString => EmptyString
  end.

(** ['a' <= key[0] and key[0] <= 'z'] *)
Definition first_is_lower (key : string) : result bool :=
  match key with
  | String a _ =>
      let n := nat_of_ascii a in Ok ((97 <=? n) && (n <=? 122))%nat
  | EmptyString => Raise IndexError
  end.

(** The loop of [__init__] that also binds capital letters: it goes
    through the keys the dict had before the loop. *)
Fixpoint bind_capitals (keys : list string) (key_bindings : list (string * callback))
    : result (list (string * callback)) :=
  match keys with
  | [] => Ok key_bindings
  | key :: keys' =>
      match first_is_lower key with
      | Raise e => Raise e
      | Ok false => bind_capitals keys' key_bindings
      | Ok true =>
          match dict_get key key_bindings with
          | Some cb => bind_capitals keys' (dict_set (upper key) cb key_bindings)
          | None => Raise (KeyError key)
          end
      end
  end.

Definition KEY_BINDINGS : list (string * callback) :=
  [ ("<Left>", OnPreviousImage); ("<Right>", OnNextImage);
    ("<Up>", OnPreviousLabel); ("<Down>", OnNextLabel);
    ("q", OnQuit); ("n", OnNextImage) ].

(** The keys bound to the window, as [__init__] computes them. *)
Definition bound_keys : result (list (string * callback)) :=
  bind_capitals (map fst KEY_BINDINGS) KEY_BINDINGS.

(** A key name that starts with a capital letter. *)
Definition first_is_upper (key : string) : bool :=
  match key with
  | String a _ => let n := nat_of_ascii a in ((65 <=? n) && (n <=? 90))%nat
  | EmptyString => false
  end.

(** * Properties *)

(** ** Python indexing *)

Lemma py_index_in_range {A} (l : list A) (i : Z) :
  0 <= i < Z.of_nat (length l) ->
  exists x, l !! Z.to_nat i = Some x /\ py_index l i = Ok x.
Proof.
  intros Hi. unfold py_index.
  destruct (lookup_lt_is_Some_2 l (Z.to_nat i)) as [x Hx]; [lia|].
  exists x. split; [exact Hx|].
  replace ((0 <=? i) && (i <? Z.of_nat (length l))) with true by lia.
  now rewrite Hx.
Qed.

Lemma py_index_nil {A} (i : Z) : py_index (@nil A) i = Raise IndexError.
Proof.
  unfold py_index. simpl. now repeat case_match.
Qed.

(** ** The session of the examples *)

Lemma demo_world_fields :
  doors_df demo_world = demo_frame /\
  current_image demo_world = Some "b.jpg" /\
  current_image_index demo_world = 0 /\
  image_files demo_world = ["b.jpg"; "a.jpg"; "c.jpg"] /\
  current_label demo_world = Some "open" /\
  current_label_index demo_world = 0 /\
  labels demo_world = ["open"; "closed"] /\
  label_list_items demo_world = ["open"; "closed"] /\
  label_list_selection demo_world = [0] /\
  written demo_world = [("doors/doors.csv", demo_frame)].
Proof. vm_compute. repeat split. Qed.

(** ** Image preparation *)

Ltac run_handler :=
  unfold exec, outcome, bind, ret, get, modify, lift; simpl.

Ltac crush := repeat (case_match; simplify_eq/=); try done; try lia.

(** C6, as the specification states it, fails on an image smaller than
    the crop rectangle: [prepare_image] returns an image there, every
    pixel of which holds the fill value. *)
Lemma prepare_image_small_image_returns :
  ~ crop_within_bounds small_image /\
  exists out, prepare_image small_image = Ok out /\
              width out = 280 /\ height out = 840 /\
              forall x y, 0 <= x -> 0 <= y -> getpixel out x y = 0.
Proof.
  split.
  - unfold crop_within_bounds; simpl. lia.
  - eexists. split; [reflexivity|]. simpl. repeat split.
    intros x y Hx Hy. unfold in_image; simpl.
    destruct ((0 <=? x + 1020) && (x + 1020 <? 100) && (0 <=? y + 510)
              && (y + 510 <? 100)) eqn:E; [lia | reflexivity].
Qed.

(** C6, amended: [prepare_image] never fails, whatever the size of the
    source image.  It returns an image 280 wide and 840 high whose pixel
    (x, y) is the source pixel (x + 1020, y + 510) where the source has
    one and the fill value 0 elsewhere; when the crop rectangle lies
    within the source, the result is exactly that region of it. *)
Theorem prepare_image_crops (im : Image) :
  exists out,
    prepare_image im = Ok out /\
    width out = 280 /\ height out = 840 /\
    (forall x y,
        getpixel out x y =
          if in_image im (x + 1020) (y + 510)
          then getpixel im (x + 1020) (y + 510) else 0) /\
    (crop_within_bounds im ->
     forall x y, 0 <= x < 280 -> 0 <= y < 840 ->
                 getpixel out x y = getpixel im (x + 1020) (y + 510)).
Proof.
  eexists. split; [reflexivity|]. simpl. repeat split.
  intros (H1 & H2 & H3 & H4) x y Hx Hy.
  unfold in_image.
  destruct ((0 <=? x + 1020) && (x + 1020 <? width im) && (0 <=? y + 510)
            && (y + 510 <? height im)) eqn:E; [reflexivity | lia].
Qed.

Lemma prepare_image_crops_witness :
  crop_within_bounds large_image /\
  exists out,
    prepare_image large_image = Ok out /\
    getpixel out 0 0 = getpixel large_image 1020 510.
Proof.
  split.
  - unfold crop_within_bounds; simpl. lia.
  - destruct (prepare_image_crops large_image)
      as (out & Hout & _ & _ & _ & Hin).
    exists out. split; [exact Hout|].
    apply Hin; [unfold crop_within_bounds; simpl|..]; lia.
Defined.

(** ** Moving through the labels *)

Lemma previous_label_index (w : World) :
  current_label_index (exec previous_label w) =
    backward (Z.of_nat (length (labels w))) (current_label_index w).
Proof.
  unfold previous_label, selection_clear_all, selection_set, backward.
  run_handler. crush.
Qed.

Lemma next_label_index (w : World) :
  current_label_index (exec next_label w) =
    forward (Z.of_nat (length (labels w))) (current_label_index w).
Proof.
  unfold next_label, selection_clear_all, selection_set, forward.
  run_handler. crush.
Qed.

Lemma previous_label_labels (w : World) :
  labels (exec previous_label w) = labels w.
Proof.
  unfold previous_label, selection_clear_all, selection_set.
  run_handler. crush.
Qed.

Lemma next_label_labels (w : World) :
  labels (exec next_label w) = labels w.
Proof.
  unfold next_label, selection_clear_all, selection_set.
  run_handler. crush.
Qed.

Lemma previous_label_current (w : World) :
  let i := backward (Z.of_nat (length (labels w))) (current_label_index w) in
  0 <= i < Z.of_nat (length (labels w)) ->
  outcome previous_label w = Ok tt /\
  current_label (exec previous_label w) = labels w !! Z.to_nat i.
Proof.
  intros i Hi. destruct (py_index_in_range (labels w) i Hi) as (x & Hx & Hp).
  subst i. revert Hx Hp.
  unfold previous_label, selection_clear_all, selection_set, backward.
  run_handler. intros Hx Hp. crush.
Qed.

Lemma next_label_current (w : World) :
  let i := forward (Z.of_nat (length (labels w))) (current_label_index w) in
  0 <= i < Z.of_nat (length (labels w)) ->
  outcome next_label w = Ok tt /\
  current_label (exec next_label w) = labels w !! Z.to_nat i.
Proof.
  intros i Hi. destruct (py_index_in_range (labels w) i Hi) as (x & Hx & Hp).
  subst i. revert Hx Hp.
  unfold next_label, selection_clear_all, selection_set, forward.
  run_handler. intros Hx Hp. crush.
Qed.

(** C7: cycling the label wraps at both ends.  With a label list that
    is not empty, [previous_label] at index 0 moves to the last index
    and [next_label] at the last index moves to 0; in both cases the
    handler returns and the current label becomes the label at the new
    index (the last label, the first label). *)
Theorem label_cycling_wraps (w : World) :
  labels w <> [] ->
  (current_label_index w = 0 ->
   outcome previous_label w = Ok tt /\
   current_label_index (exec previous_label w)
     = Z.of_nat (length (labels w)) - 1 /\
   current_label (exec previous_label w) = last (labels w)) /\
  (current_label_index w = Z.of_nat (length (labels w)) - 1 ->
   outcome next_label w = Ok tt /\
   current_label_index (exec next_label w) = 0 /\
   current_label (exec next_label w) = head (labels w)).
Proof.
  intros Hne.
  assert (Hlen : 0 < Z.of_nat (length (labels w))).
  { destruct (labels w); [done | simpl; lia]. }
  split; intros Hi.
  - assert (Hb : backward (Z.of_nat (length (labels w)))
                          (current_label_index w)
                 = Z.of_nat (length (labels w)) - 1).
    { unfold backward. rewrite Hi. reflexivity. }
    destruct (previous_label_current w) as [Ho Hl]; [rewrite Hb; lia|].
    rewrite previous_label_index, Hb. repeat split; [exact Ho|].
    rewrite Hl, Hb, last_lookup. f_equal. lia.
  - assert (Hf : forward (Z.of_nat (length (labels w)))
                         (current_label_index w) = 0).
    { unfold forward. rewrite Hi.
      destruct (Z.of_nat (length (labels w)) - 1 + 1
                >=? Z.of_nat (length (labels w))) eqn:E; [reflexivity|lia]. }
    destruct (next_label_current w) as [Ho Hl]; [rewrite Hf; lia|].
    rewrite next_label_index, Hf. repeat split; [exact Ho|].
    rewrite Hl, Hf. now destruct (labels w).
Qed.

Lemma label_cycling_wraps_witness :
  labels demo_world <> [] /\
  current_label_index demo_world = 0 /\
  current_label_index (exec previous_label demo_world) = 1 /\
  current_label (exec previous_label demo_world) = Some "closed".
Proof.
  destruct demo_world_fields as (_ & _ & _ & _ & _ & Ei & El & _).
  assert (Hne : labels demo_world <> []) by (rewrite El; discriminate).
  split; [exact Hne|]. split; [exact Ei|].
  destruct (label_cycling_wraps demo_world Hne) as [Hprev _].
  destruct (Hprev Ei) as (_ & Hi & Hl).
  rewrite El in Hi, Hl. split; [exact Hi | exact Hl].
Defined.

(** ** Saving a label *)

Lemma save_eq (w : World) :
  save w =
    match current_label w with
    | None => (Ok tt, w)
    | Some lbl =>
        if bool_decide ("image" ∈ columns (doors_df w))
        then if can_write w (path_to_csv w) then (Ok tt, saved lbl w)
             else (Raise (OSError (path_to_csv w)), stored lbl w)
        else (Raise (KeyError "image"), w)
    end.
Proof.
  unfold save, to_csv_file, saved, stored, upserted, df_column. run_handler.
  destruct (current_label w); [|reflexivity].
  destruct (bool_decide ("image" ∈ columns (doors_df w))); simpl; [|reflexivity].
  destruct (existsb _ _); simpl; now destruct (can_write w (path_to_csv w)).
Qed.

Lemma exec_save (w : World) :
  exec save w =
    match current_label w with
    | None => w
    | Some lbl =>
        if bool_decide ("image" ∈ columns (doors_df w))
        then if can_write w (path_to_csv w) then saved lbl w else stored lbl w
        else w
    end.
Proof.
  unfold exec. rewrite save_eq.
  destruct (current_label w); [|reflexivity].
  destruct (bool_decide _); [|reflexivity].
  now destruct (can_write w (path_to_csv w)).
Qed.

Lemma outcome_save (w : World) :
  if save_raises w then exists e, outcome save w = Raise e
  else outcome save w = Ok tt.
Proof.
  unfold outcome, save_raises. rewrite save_eq.
  destruct (current_label w); [|reflexivity].
  destruct (bool_decide _); simpl.
  - destruct (can_write w (path_to_csv w)); simpl; [reflexivity | eauto].
  - eauto.
Qed.

(** [load_image] touches the current image and what is displayed,
    nothing else. *)
Lemma load_image_frame (w : World) :
  let w' := exec load_image w in
  doors_df w' = doors_df w /\ csv_files w' = csv_files w /\
  written w' = written w /\
  current_image_index w' = current_image_index w /\
  image_files w' = image_files w /\ labels w' = labels w /\
  current_label w' = current_label w /\
  current_label_index w' = current_label_index w /\
  label_list_items w' = label_list_items w /\
  label_list_selection w' = label_list_selection w /\
  path_to_csv w' = path_to_csv w /\ door_id w' = door_id w /\
  can_write w' = can_write w.
Proof.
  unfold load_image, image_open. run_handler. crush.
Qed.

Lemma exec_bind {A B} (m : M A) (k : A -> M B) (w : World) :
  exec (bind m k) w =
    match outcome m w with
    | Ok a => exec (k a) (exec m w)
    | Raise _ => exec m w
    end.
Proof. unfold exec, outcome, bind. now destruct (m w) as [[a|e] w']. Qed.

Lemma next_image_eq (no_save : bool) (w : World) :
  exec (next_image no_save) w =
    if negb no_save && save_raises w then exec save w
    else
      let w1 := if no_save then w else exec save w in
      exec load_image
           (set_current_image_index
              (forward (Z.of_nat (length (image_files w1)))
                       (current_image_index w1)) w1).
Proof.
  unfold next_image, forward. rewrite exec_bind.
  destruct no_save; simpl.
  - unfold exec. run_handler. crush.
  - pose proof (outcome_save w) as Ho.
    destruct (save_raises w) eqn:Hr.
    + destruct Ho as [e ->]. reflexivity.
    + rewrite Ho. generalize (exec save w). intros w1.
      unfold exec. run_handler. crush.
Qed.

Lemma previous_image_eq (w : World) :
  exec previous_image w =
    if save_raises w then exec save w
    else
      let w1 := exec save w in
      exec load_image
           (set_current_image_index
              (backward (Z.of_nat (length (image_files w1)))
                        (current_image_index w1)) w1).
Proof.
  unfold previous_image, backward. rewrite exec_bind.
  pose proof (outcome_save w) as Ho.
  destruct (save_raises w) eqn:Hr.
  - destruct Ho as [e ->]. reflexivity.
  - rewrite Ho. simpl. generalize (exec save w). intros w1.
    unfold exec. run_handler. crush.
Qed.

Lemma upserted_columns (img : cell) (lbl : string) (g : Z) (df : DataFrame)
    (c : string) :
  c ∈ columns df -> c ∈ columns (upserted img lbl g df).
Proof.
  intros Hc. unfold upserted, loc_set, append.
  destruct (existsb _ _); simpl.
  - case_bool_decide; [exact Hc | apply elem_of_app; now left].
  - apply elem_of_app; now left.
Qed.

(** [save] touches the table, its file and the log of writes, nothing
    else. *)
Lemma save_frame (w : World) :
  image_files (exec save w) = image_files w /\
  current_image_index (exec save w) = current_image_index w /\
  labels (exec save w) = labels w /\
  current_label (exec save w) = current_label w /\
  current_label_index (exec save w) = current_label_index w /\
  label_list_items (exec save w) = label_list_items w /\
  label_list_selection (exec save w) = label_list_selection w /\
  current_image (exec save w) = current_image w /\
  path_to_csv (exec save w) = path_to_csv w /\
  can_write (exec save w) = can_write w /\
  door_id (exec save w) = door_id w.
Proof.
  rewrite exec_save. destruct (current_label w) eqn:Hl; [|done].
  destruct (bool_decide _); [|done].
  destruct (can_write w (path_to_csv w)); simpl; rewrite ?Hl; done.
Qed.

Lemma save_keeps_image_column (w : World) :
  "image" ∈ columns (doors_df w) -> "image" ∈ columns (doors_df (exec save w)).
Proof.
  intros Hc. rewrite exec_save. destruct (current_label w); [|exact Hc].
  rewrite bool_decide_eq_true_2 by exact Hc.
  destruct (can_write w (path_to_csv w)); simpl; now apply upserted_columns.
Qed.

Lemma save_raises_exec_save (w : World) :
  save_raises (exec save w) = save_raises w.
Proof.
  destruct (save_frame w) as (_ & _ & _ & Hl & _ & _ & _ & _ & Hp & Hcw & _).
  unfold save_raises. rewrite Hl, Hp, Hcw.
  destruct (current_label w) eqn:El; [|reflexivity]. f_equal. f_equal.
  destruct (decide ("image" ∈ columns (doors_df w))) as [Hc|Hc].
  - rewrite !bool_decide_eq_true_2; auto using save_keeps_image_column.
  - rewrite exec_save, El. now rewrite !(bool_decide_eq_false_2 _ Hc).
Qed.

Lemma save_raises_load_image (w : World) :
  save_raises (exec load_image w) = save_raises w.
Proof.
  unfold save_raises, load_image, image_open. run_handler. crush.
Qed.

Lemma next_image_step (w : World) :
  current_image_index (exec (next_image false) w)
    = fstep (save_raises w) (Z.of_nat (length (image_files w)))
            (current_image_index w) /\
  image_files (exec (next_image false) w) = image_files w /\
  save_raises (exec (next_image false) w) = save_raises w.
Proof.
  rewrite next_image_eq. unfold fstep. simpl.
  destruct (save_frame w) as (Hf & Hi & _).
  pose proof (save_raises_exec_save w) as Hs.
  destruct (save_raises w) eqn:Hr; [done|]. simpl.
  match goal with |- context [exec load_image ?x] =>
    destruct (load_image_frame x) as (_ & _ & _ & Hi' & Hf' & _);
    pose proof (save_raises_load_image x) as Hr' end.
  rewrite Hi', Hf', Hr'. simpl. rewrite Hf, Hi. repeat split.
  exact Hs.
Qed.

Lemma previous_image_step (w : World) :
  current_image_index (exec previous_image w)
    = bstep (save_raises w) (Z.of_nat (length (image_files w)))
            (current_image_index w) /\
  image_files (exec previous_image w) = image_files w /\
  save_raises (exec previous_image w) = save_raises w.
Proof.
  rewrite previous_image_eq. unfold bstep. simpl.
  destruct (save_frame w) as (Hf & Hi & _).
  pose proof (save_raises_exec_save w) as Hs.
  destruct (save_raises w) eqn:Hr; [done|]. simpl.
  match goal with |- context [exec load_image ?x] =>
    destruct (load_image_frame x) as (_ & _ & _ & Hi' & Hf' & _);
    pose proof (save_raises_load_image x) as Hr' end.
  rewrite Hi', Hf', Hr'. simpl. rewrite Hf, Hi. repeat split.
  exact Hs.
Qed.

Lemma repeat_next_image (N : nat) (w : World) :
  current_image_index (repeat_exec N (next_image false) w)
    = Nat.iter N (fstep (save_raises w) (Z.of_nat (length (image_files w))))
               (current_image_index w) /\
  image_files (repeat_exec N (next_image false) w) = image_files w /\
  save_raises (repeat_exec N (next_image false) w) = save_raises w.
Proof.
  revert w. induction N as [|N IH]; intros w; [done|].
  simpl repeat_exec. destruct (IH (exec (next_image false) w)) as (Hi & Hf & Hr).
  destruct (next_image_step w) as (Hi1 & Hf1 & Hr1).
  rewrite Hi, Hf, Hr, Hi1, Hf1, Hr1, Nat.iter_succ_r. done.
Qed.

Lemma repeat_previous_image (N : nat) (w : World) :
  current_image_index (repeat_exec N previous_image w)
    = Nat.iter N (bstep (save_raises w) (Z.of_nat (length (image_files w))))
               (current_image_index w) /\
  image_files (repeat_exec N previous_image w) = image_files w /\
  save_raises (repeat_exec N previous_image w) = save_raises w.
Proof.
  revert w. induction N as [|N IH]; intros w; [done|].
  simpl repeat_exec. destruct (IH (exec previous_image w)) as (Hi & Hf & Hr).
  destruct (previous_image_step w) as (Hi1 & Hf1 & Hr1).
  rewrite Hi, Hf, Hr, Hi1, Hf1, Hr1, Nat.iter_succ_r. done.
Qed.

Lemma forward_in_range (n i : Z) : 0 <= i < n -> 0 <= forward n i < n.
Proof. unfold forward. intros H. case_match; lia. Qed.

Lemma backward_in_range (n i : Z) : 0 <= i < n -> 0 <= backward n i < n.
Proof. unfold backward. intros H. case_match; lia. Qed.

Lemma backward_forward (n i : Z) : 0 <= i < n -> backward n (forward n i) = i.
Proof. unfold backward, forward. intros H. repeat case_match; lia. Qed.

Lemma forward_backward (n i : Z) : 0 <= i < n -> forward n (backward n i) = i.
Proof. unfold backward, forward. intros H. repeat case_match; lia. Qed.

Lemma iter_fstep_in_range (r : bool) (n i : Z) (N : nat) :
  0 <= i < n -> 0 <= Nat.iter N (fstep r n) i < n.
Proof.
  intros H. induction N as [|N IH]; [exact H|].
  simpl. unfold fstep at 1. destruct r; [exact IH|].
  now apply forward_in_range.
Qed.

Lemma iter_back_forth (r : bool) (n i : Z) (N : nat) :
  0 <= i < n ->
  Nat.iter N (bstep r n) (Nat.iter N (fstep r n) i) = i.
Proof.
  intros H. induction N as [|N IH]; [reflexivity|].
  rewrite Nat.iter_succ_r. simpl.
  replace (bstep r n (fstep r n (Nat.iter N (fstep r n) i)))
    with (Nat.iter N (fstep r n) i); [exact IH|].
  unfold bstep, fstep at 2. destruct r; [reflexivity|].
  symmetry. apply backward_forward. now apply iter_fstep_in_range.
Qed.

(** C3: from an image index that is within the image list, [N] runs of
    the handler of "next" followed by [N] runs of the handler of
    "previous" bring the image index back to where it started. *)
Theorem next_then_previous_returns (w : World) (N : nat) :
  0 <= current_image_index w < Z.of_nat (length (image_files w)) ->
  current_image_index
    (repeat_exec N previous_image (repeat_exec N (next_image false) w))
  = current_image_index w.
Proof.
  intros Hi.
  destruct (repeat_next_image N w) as (Hn & Hf & Hr).
  destruct (repeat_previous_image N (repeat_exec N (next_image false) w))
    as (Hp & _ & _).
  rewrite Hp, Hn, Hf, Hr. now apply iter_back_forth.
Qed.

Lemma next_then_previous_returns_witness :
  0 <= current_image_index demo_world
    < Z.of_nat (length (image_files demo_world)) /\
  current_image_index
    (repeat_exec 5 previous_image (repeat_exec 5 (next_image false) demo_world))
  = 0.
Proof.
  assert (H : 0 <= current_image_index demo_world
              < Z.of_nat (length (image_files demo_world))).
  { destruct demo_world_fields as (_ & _ & -> & -> & _). simpl. lia. }
  split; [exact H|].
  rewrite (next_then_previous_returns demo_world 5 H).
  apply demo_world_fields.
Defined.

(** ** Skipping, and what "next" and "previous" write *)

Lemma saved_fields (lbl : string) (w : World) :
  doors_df (saved lbl w)
    = upserted (cell_of_name (current_image w)) lbl (door_id w) (doors_df w) /\
  csv_files (saved lbl w)
    = <[path_to_csv w := to_csv (doors_df (saved lbl w))]> (csv_files w) /\
  written (saved lbl w)
    = written w ++ [(path_to_csv w, doors_df (saved lbl w))].
Proof. done. Qed.

(** C4: [skip_image] moves the image index forward by one, wrapping to
    0 after the last image, and it leaves the table, the files and the
    log of writes as they were, whether a label is selected or not.
    This is the index to which [next_image] moves whenever its [save]
    does not raise, that is, unless a label is selected and the table
    has no [image] column or the file of the table cannot be written
    ([next_image] then does not move at all). *)
Theorem skip_image_leaves_store (w : World) :
  doors_df (exec skip_image w) = doors_df w /\
  csv_files (exec skip_image w) = csv_files w /\
  written (exec skip_image w) = written w /\
  current_image_index (exec skip_image w)
    = forward (Z.of_nat (length (image_files w))) (current_image_index w) /\
  (save_raises w = false ->
   current_image_index (exec skip_image w)
     = current_image_index (exec (next_image false) w)).
Proof.
  unfold skip_image. rewrite next_image_eq. simpl.
  match goal with |- context [exec load_image ?x] =>
    destruct (load_image_frame x) as (Hd & Hc & Hw & Hi & _) end.
  rewrite Hd, Hc, Hw, Hi. simpl. repeat split.
  intros Hr. destruct (next_image_step w) as (Hn & _).
  rewrite Hn, Hr. reflexivity.
Qed.

Lemma skip_image_leaves_store_witness :
  save_raises demo_world = false /\
  doors_df (exec skip_image demo_world) = demo_frame /\
  current_image_index (exec skip_image demo_world) = 1 /\
  current_image_index (exec (next_image false) demo_world) = 1.
Proof.
  destruct (skip_image_leaves_store demo_world) as (Hd & _ & _ & Hi & Hn).
  destruct demo_world_fields as (Ed & _ & Ei & Ef & _).
  assert (Hr : save_raises demo_world = false) by (vm_compute; reflexivity).
  rewrite Ei, Ef in Hi.
  split; [exact Hr|]. split; [rewrite Hd; exact Ed|]. split; [exact Hi|].
  rewrite <- (Hn Hr). exact Hi.
Defined.



(** ** Loading the table *)


(** ** Indices stay within their sequences *)

Lemma nav_inv_move_image (w w1 : World) (i : Z) :
  nav_inv w ->
  image_files w1 = image_files w -> labels w1 = labels w ->
  current_label_index w1 = current_label_index w ->
  label_list_items w1 = label_list_items w ->
  label_list_selection w1 = label_list_selection w ->
  0 <= i < Z.of_nat (length (image_files w)) ->
  nav_inv (exec load_image (set_current_image_index i w1)).
Proof.
  intros [[Hi Hl] [Hit Hsel]] Hf Hlab Hli Hitems Hs Hrange.
  destruct (load_image_frame (set_current_image_index i w1))
    as (_ & _ & _ & Ei & Ef & El & _ & Eli & Eit & Es & _).
  simpl in *. unfold nav_inv, indices_valid, label_list_ok.
  rewrite Ei, Ef, El, Eli, Eit, Es, Hf, Hlab, Hli, Hitems, Hs. done.
Qed.

Lemma nav_inv_save (w : World) : nav_inv w -> nav_inv (exec save w).
Proof.
  destruct (save_frame w) as (Hf & Hi & Hl & _ & Hli & Hit & Hs & _).
  unfold nav_inv, indices_valid, label_list_ok.
  now rewrite Hf, Hi, Hl, Hli, Hit, Hs.
Qed.

Lemma nav_inv_next_image (b : bool) (w : World) :
  nav_inv w -> nav_inv (exec (next_image b) w).
Proof.
  intros Hinv. rewrite next_image_eq.
  destruct (negb b && save_raises w); [now apply nav_inv_save|]. simpl.
  destruct (save_frame w) as (Hf & Hi & Hl & _ & Hli & Hit & Hs & _).
  destruct b.
  - apply nav_inv_move_image with (w := w); try done.
    apply forward_in_range, Hinv.
  - apply nav_inv_move_image with (w := w); try done.
    rewrite Hf, Hi. apply forward_in_range, Hinv.
Qed.

Lemma nav_inv_previous_image (w : World) :
  nav_inv w -> nav_inv (exec previous_image w).
Proof.
  intros Hinv. rewrite previous_image_eq.
  destruct (save_raises w); [now apply nav_inv_save|]. simpl.
  destruct (save_frame w) as (Hf & Hi & Hl & _ & Hli & Hit & Hs & _).
  apply nav_inv_move_image with (w := w); try done.
  rewrite Hf, Hi. apply backward_in_range, Hinv.
Qed.

Lemma insert_sorted_Forall (P : Z -> Prop) (i : Z) (sel : list Z) :
  P i -> Forall P sel -> Forall P (insert_sorted i sel).
Proof.
  intros Hi Hs. induction Hs as [|j sel Hj Hs IH]; simpl.
  - now constructor.
  - repeat case_match; repeat constructor; done.
Qed.

Lemma nav_inv_previous_label (w : World) :
  nav_inv w -> nav_inv (exec previous_label w).
Proof.
  intros [[Hi Hl] [Hit Hsel]].
  pose proof (backward_in_range _ _ Hl) as Hb. revert Hb.
  unfold nav_inv, indices_valid, label_list_ok, backward.
  unfold previous_label, selection_clear_all, selection_set.
  run_handler. intros Hb.
  crush; repeat split; try done; try lia;
    repeat constructor; try lia.
Qed.

Lemma nav_inv_next_label (w : World) :
  nav_inv w -> nav_inv (exec next_label w).
Proof.
  intros [[Hi Hl] [Hit Hsel]].
  pose proof (forward_in_range _ _ Hl) as Hb. revert Hb.
  unfold nav_inv, indices_valid, label_list_ok, forward.
  unfold next_label, selection_clear_all, selection_set.
  run_handler. intros Hb.
  crush; repeat split; try done; try lia;
    repeat constructor; try lia.
Qed.

Lemma py_index_head_Forall (P : Z -> Prop) (sel : list Z) (i : Z) :
  Forall P sel -> py_index sel 0 = Ok i -> P i.
Proof.
  intros Hs. unfold py_index. destruct Hs as [|j sel Hj Hs]; simpl.
  - discriminate.
  - intros [= <-]. exact Hj.
Qed.

Lemma nav_inv_select_label (w : World) :
  nav_inv w -> nav_inv (exec select_label w).
Proof.
  intros [[Hi Hl] [Hit Hsel]].
  unfold select_label, curselection. run_handler.
  destruct (py_index (label_list_selection w) 0) as [i|e] eqn:Hp; simpl.
  - pose proof (py_index_head_Forall _ _ _ Hsel Hp) as Hr. simpl in Hr.
    rewrite Hit in Hr.
    unfold nav_inv, indices_valid, label_list_ok.
    destruct (py_index (labels w) i); simpl; done.
  - done.
Qed.

Lemma nav_inv_click_label (i : nat) (w : World) :
  nav_inv w -> nav_inv (exec (click_label i) w).
Proof.
  intros Hinv. unfold click_label. run_handler.
  destruct (i <? length (label_list_items w))%nat eqn:Hlt; [|exact Hinv].
  apply (nav_inv_select_label (set_label_list_selection [Z.of_nat i] w)).
  destruct Hinv as [[Hi Hl] [Hit Hsel]].
  unfold nav_inv, indices_valid, label_list_ok. simpl.
  repeat split; try done; try lia.
  apply Nat.ltb_lt in Hlt.
  constructor; [lia | constructor].
Qed.

Lemma nav_inv_handler (c : command) (w : World) :
  nav_inv w -> nav_inv (exec (handler c) w).
Proof.
  destruct c; simpl.
  - apply nav_inv_next_image.
  - apply nav_inv_previous_image.
  - apply nav_inv_next_image.
  - apply nav_inv_previous_label.
  - apply nav_inv_next_label.
  - apply nav_inv_click_label.
  - apply nav_inv_select_label.
Qed.

(** When [startup] returns, with labels to choose from and the indices
    and the selection as [__init__] sets them, the session begins
    with both indices within their lists. *)
Lemma startup_nav_inv (w : World) :
  labels w <> [] ->
  current_image_index w = 0 -> current_label_index w = 0 ->
  label_list_selection w = [] ->
  outcome startup w = Ok tt ->
  nav_inv (exec startup w).
Proof.
  intros Hl Hi Hli Hs.
  assert (Hlen : 0 < Z.of_nat (length (labels w))).
  { destruct (labels w); [done | simpl; lia]. }
  unfold nav_inv, indices_valid, label_list_ok.
  unfold startup, load_csv, load_labels, load_image, image_open.
  run_handler. crush; rewrite ?Hi, ?Hli, ?Hs in *; intros _.
  all: match goal with
       | H : py_index (image_files ?v) 0 = Ok _ |- _ =>
           assert (Hf : 0 < Z.of_nat (length (image_files v)))
             by (destruct (image_files v);
                 [rewrite py_index_nil in H; discriminate | simpl; lia])
       end.
  all: repeat split; try lia; constructor.
Qed.

(** C9: when the image index and the label index are within the image
    list and the label list, and the list box shows the labels, they
    are still within them after every handler that moves through the
    images or the labels, and so after any sequence of them. *)
Theorem indices_stay_valid (cs : list command) (w : World) :
  indices_valid w -> label_list_ok w ->
  indices_valid (run cs w) /\ label_list_ok (run cs w).
Proof.
  intros Hi Hl. assert (Hinv : nav_inv w) by (split; assumption).
  clear Hi Hl. revert w Hinv.
  induction cs as [|c cs IH]; intros w Hinv; [exact Hinv|].
  simpl. apply IH. now apply nav_inv_handler.
Qed.

Lemma indices_stay_valid_witness :
  indices_valid demo_world /\ label_list_ok demo_world /\
  indices_valid
    (run [Previous; LabelUp; Click 1; Next; Next; Skip; LabelDown] demo_world).
Proof.
  destruct demo_world_fields
    as (_ & _ & Ei & Ef & _ & Eli & El & Eit & Es & _).
  assert (Hi : indices_valid demo_world).
  { unfold indices_valid. rewrite Ei, Ef, Eli, El. simpl. lia. }
  assert (Hl : label_list_ok demo_world).
  { unfold label_list_ok. rewrite Eit, El, Es.
    split; [reflexivity|]. constructor; [simpl; lia | constructor]. }
  split; [exact Hi|]. split; [exact Hl|].
  exact (proj1 (indices_stay_valid
                  [Previous; LabelUp; Click 1; Next; Next; Skip; LabelDown]
                  demo_world Hi Hl)).
Defined.

(** ** The rows of the table *)

Lemma row_get_insert_label (r : gmap string cell) (x : cell) :
  row_get (<["label" := x]> r) "image" = row_get r "image".
Proof. unfold row_get. now rewrite lookup_insert_ne. Qed.

Lemma mask_is_cell_is (v x : cell) : mask_is v x = true -> cell_is v x = true.
Proof. now destruct v, x. Qed.

Lemma mask_is_CStr (name : string) (x : cell) :
  mask_is (CStr name) x = cell_is (CStr name) x.
Proof. now destruct x. Qed.

Lemma upcast_row_other (cs : list string) (r : gmap string cell) (k : string) :
  k ∉ cs -> upcast_row cs r !! k = r !! k.
Proof.
  induction cs as [|c cs IH]; intros Hk; [reflexivity|]. cbn [upcast_row foldr].
  apply not_elem_of_cons in Hk as [Hne Hk]. specialize (IH Hk).
  destruct (r !! c) as [[]|]; try exact IH.
  rewrite lookup_insert_ne by done. exact IH.
Qed.

Lemma upcast_row_same_or_float (cs : list string) (r : gmap string cell)
    (k : string) :
  same_or_float (r !! k) (upcast_row cs r !! k).
Proof.
  induction cs as [|c cs IH]; [now left|]. cbn [upcast_row foldr].
  destruct (r !! c) as [[]|] eqn:E; try exact IH.
  destruct (decide (c = k)) as [->|Hne].
  - rewrite lookup_insert_eq. right. eauto.
  - rewrite lookup_insert_ne by done. exact IH.
Qed.

Lemma upcast_columns_not_key (d : list (string * cell)) (df : DataFrame)
    (k : string) :
  k ∈ map fst d -> k ∉ upcast_columns d df.
Proof.
  intros Hk Hin. unfold upcast_columns in Hin.
  apply list_elem_of_filter in Hin as [[Hn _] _]. contradiction.
Qed.

(** The row that [save] appends. *)
Lemma new_row_label (g : Z) (img : cell) (lbl : string) (df : DataFrame) :
  new_row [("door_id", CInt g); ("image", img); ("label", CStr lbl)] df
    !! "label" = Some (CStr lbl).
Proof.
  unfold new_row. cbn [map fst snd list_to_map foldr uncurry].
  rewrite !lookup_insert_ne by done. rewrite lookup_insert_eq.
  now destruct (float_column "label" df).
Qed.

Lemma new_row_image (q : cell) (g : Z) (img : cell) (lbl : string)
    (df : DataFrame) :
  cell_is q (row_get (new_row [("door_id", CInt g); ("image", img);
                               ("label", CStr lbl)] df) "image")
  = cell_is q img.
Proof.
  unfold new_row, row_get. cbn [map fst snd list_to_map foldr uncurry].
  rewrite lookup_insert_ne by done. rewrite lookup_insert_eq.
  cbn [default from_option id].
  destruct (float_column "image" df); [|reflexivity].
  now destruct q, img.
Qed.

(** What [save] does to a row of the table. *)
Lemma upcast_row_keys (g : Z) (img : cell) (lbl : string) (df : DataFrame)
    (r : gmap string cell) (k : string) :
  k ∈ ["door_id"; "image"; "label"] ->
  upcast_row (upcast_columns [("door_id", CInt g); ("image", img);
                              ("label", CStr lbl)] df) r !! k = r !! k.
Proof. intros Hk. apply upcast_row_other. now apply upcast_columns_not_key. Qed.

Lemma upcast_row_image (g : Z) (img : cell) (lbl : string) (df : DataFrame)
    (r : gmap string cell) :
  row_get (upcast_row (upcast_columns [("door_id", CInt g); ("image", img);
                                       ("label", CStr lbl)] df) r) "image"
  = row_get r "image".
Proof.
  unfold row_get. rewrite upcast_row_keys; [reflexivity|]. right. now left.
Qed.

Lemma filter_image_map (q : cell) (v : bool)
    (f : gmap string cell -> gmap string cell) (l : list (gmap string cell)) :
  (forall r, row_get (f r) "image" = row_get r "image") ->
  filter (fun r => cell_is q (row_get r "image") = v) (map f l)
  = map f (filter (fun r => cell_is q (row_get r "image") = v) l).
Proof.
  intros Hf. induction l as [|r l IH]; [reflexivity|].
  cbn [map]. rewrite !filter_cons, Hf.
  destruct (decide (cell_is q (row_get r "image") = v)); cbn [map];
    now rewrite IH.
Qed.

Lemma relabel_row_image (img x : cell) (r : gmap string cell) :
  row_get (if mask_is img (row_get r "image") then <["label" := x]> r else r)
          "image"
  = row_get r "image".
Proof.
  destruct (mask_is _ _); [apply row_get_insert_label | reflexivity].
Qed.

Lemma upserted_keeps_row (img : cell) (lbl : string) (g : Z) (df : DataFrame)
    (i : nat) (r : gmap string cell) :
  rows df !! i = Some r ->
  cell_is img (row_get r "image") = false ->
  exists r',
    rows (upserted img lbl g df) !! i = Some r' /\
    (forall k, k ∈ ["door_id"; "image"; "label"] -> r' !! k = r !! k) /\
    (forall c, same_or_float (r !! c) (r' !! c)) /\
    (has_row img df = true -> r' = r).
Proof.
  intros Hr Hn. unfold upserted. fold (has_row img df).
  destruct (has_row img df); cbn [rows loc_set append].
  - exists r. split; [|split; [done|split; [now left|done]]].
    change (map ?f ?l) with (f <$> l). rewrite list_lookup_fmap, Hr.
    cbn [fmap option_fmap option_map].
    destruct (mask_is img (row_get r "image")) eqn:Hm; [|reflexivity].
    apply mask_is_cell_is in Hm. congruence.
  - eexists. split; [|split; [|split; [|discriminate]]].
    + apply lookup_app_l_Some.
      change (map ?f ?l) with (f <$> l). rewrite list_lookup_fmap, Hr.
      reflexivity.
    + intros k Hk. now apply upcast_row_keys.
    + intros c. apply upcast_row_same_or_float.
Qed.

(** C10, as the specification states it, fails for a table that has a
    column of integers besides image, label and door_id: the labeler
    is started on a file in which a.jpg has the note 5; the user
    chooses a label for b.jpg, which has no row yet, and goes on; the
    row that [save] appends has no note, and the note of a.jpg is the
    floating-point number 5.0 from then on, which is what the file of
    the table is given as well. *)
Lemma appended_row_makes_notes_floats :
  current_image notes_world = Some "b.jpg" /\
  map (fun r => (row_get r "image", row_get r "note"))
      (rows (doors_df notes_world))
    = [(CStr "a.jpg", CInt 5)] /\
  map (fun r => (row_get r "image", row_get r "note"))
      (rows (doors_df (run [Click 0; Next] notes_world)))
    = [(CStr "a.jpg", CFloat "5.0"); (CStr "b.jpg", CNaN)] /\
  map (fun r => (row_get r "image", row_get r "note"))
      (rows (doors_df (exec save (exec (click_label 0) notes_world))))
    = [(CStr "a.jpg", CFloat "5.0"); (CStr "b.jpg", CNaN)] /\
  csv_files (run [Click 0; Next] notes_world) !! "doors/doors.csv"
    = Some [ ["image"; "label"; "door_id"; "note"];
             ["a.jpg"; "open"; "1"; "5.0"];
             ["b.jpg"; "open"; "1"; ""] ].
Proof. vm_compute. repeat split. Qed.

(** C10, amended: [save] changes no row of another image, but for the
    kind of its numbers.  A row whose image cell is not the current
    image is, after [save], at the position it had, with the same
    image, label and door_id and with the same cell in every other
    column, except that an integer may have become the floating-point
    number of that integer; and when the current image had a row
    already, the row of the other image is the very row it was. *)
Theorem save_keeps_other_rows (w : World) (i : nat) (r : gmap string cell) :
  rows (doors_df w) !! i = Some r ->
  cell_is (cell_of_name (current_image w)) (row_get r "image") = false ->
  exists r',
    rows (doors_df (exec save w)) !! i = Some r' /\
    r' !! "image" = r !! "image" /\
    r' !! "label" = r !! "label" /\
    r' !! "door_id" = r !! "door_id" /\
    (forall c, same_or_float (r !! c) (r' !! c)) /\
    (has_row (cell_of_name (current_image w)) (doors_df w) = true -> r' = r).
Proof.
  intros Hr Hn.
  assert (Hsame : exists r',
    rows (doors_df w) !! i = Some r' /\
    r' !! "image" = r !! "image" /\ r' !! "label" = r !! "label" /\
    r' !! "door_id" = r !! "door_id" /\
    (forall c, same_or_float (r !! c) (r' !! c)) /\
    (has_row (cell_of_name (current_image w)) (doors_df w) = true -> r' = r)).
  { exists r. repeat split; try done. now left. }
  assert (Hup : forall lbl, exists r',
    rows (upserted (cell_of_name (current_image w)) lbl (door_id w)
                   (doors_df w)) !! i = Some r' /\
    r' !! "image" = r !! "image" /\ r' !! "label" = r !! "label" /\
    r' !! "door_id" = r !! "door_id" /\
    (forall c, same_or_float (r !! c) (r' !! c)) /\
    (has_row (cell_of_name (current_image w)) (doors_df w) = true -> r' = r)).
  { intros lbl.
    destruct (upserted_keeps_row _ lbl (door_id w) _ _ _ Hr Hn)
      as (r' & Hr' & Hk & Hc & Hh).
    exists r'. split; [exact Hr'|].
    split; [apply Hk; right; now left|].
    split; [apply Hk; right; right; now left|].
    split; [apply Hk; now left|]. now split. }
  rewrite exec_save.
  destruct (current_label w) as [lbl|]; [|exact Hsame].
  destruct (bool_decide _); [|exact Hsame].
  destruct (can_write w (path_to_csv w)); apply Hup.
Qed.

Lemma save_keeps_other_rows_witness :
  rows (doors_df demo_world) !! 0%nat
    = Some {[ "image" := CStr "a.jpg"; "label" := CStr "open";
              "door_id" := CInt 1 ]} /\
  cell_is (cell_of_name (current_image demo_world)) (CStr "a.jpg") = false /\
  exists r',
    rows (doors_df (exec save demo_world)) !! 0%nat = Some r' /\
    r' !! "label" = Some (CStr "open").
Proof.
  destruct demo_world_fields as (Ed & Ec & _).
  assert (H0 : rows (doors_df demo_world) !! 0%nat
               = Some {[ "image" := CStr "a.jpg"; "label" := CStr "open";
                         "door_id" := CInt 1 ]}).
  { rewrite Ed. reflexivity. }
  assert (Hn : cell_is (cell_of_name (current_image demo_world)) (CStr "a.jpg")
               = false).
  { rewrite Ec. reflexivity. }
  split; [exact H0|]. split; [exact Hn|].
  destruct (save_keeps_other_rows demo_world 0 _ H0 Hn)
    as (r' & Hr' & _ & Hl & _).
  exists r'. split; [exact Hr' | exact Hl].
Defined.

(** ** One row for an image *)

Lemma existsb_rows_for (name : string) (df : DataFrame) :
  has_row (CStr name) df = false -> rows_for name df = [].
Proof.
  unfold rows_for, has_row. induction (rows df) as [|r l IH]; [reflexivity|].
  simpl. intros H. apply orb_false_iff in H as [H1 H2].
  rewrite filter_cons, H1. case_decide; [done|].
  now apply IH.
Qed.

Lemma rows_for_existsb (name : string) (df : DataFrame) :
  has_row (CStr name) df = true -> rows_for name df <> [].
Proof.
  unfold rows_for, has_row. induction (rows df) as [|r l IH]; [discriminate|].
  simpl. intros H. rewrite filter_cons.
  case_decide as E; [done|].
  apply IH. apply orb_true_iff in H as [H|H]; [done | exact H].
Qed.

Lemma rows_for_relabel (name : string) (img x : cell) (df : DataFrame) :
  rows_for name (loc_set "image" img "label" x df)
  = map (fun r => if mask_is img (row_get r "image")
                  then <["label" := x]> r else r) (rows_for name df).
Proof.
  unfold rows_for, loc_set. cbn [rows].
  apply filter_image_map. intros r. apply relabel_row_image.
Qed.

Lemma rows_for_append (name : string) (g : Z) (img : cell) (lbl : string)
    (df : DataFrame) :
  let d := [("door_id", CInt g); ("image", img); ("label", CStr lbl)] in
  rows_for name (append d df)
  = map (upcast_row (upcast_columns d df)) (rows_for name df) ++
    (if cell_is (CStr name) img then [new_row d df] else []).
Proof.
  intros d. unfold rows_for, append. cbn [rows].
  rewrite filter_app, filter_cons, filter_nil. subst d.
  rewrite new_row_image.
  rewrite filter_image_map by (intros r; apply upcast_row_image).
  now destruct (cell_is (CStr name) img); case_decide.
Qed.

Lemma cell_is_CStr (name : string) (c : cell) :
  cell_is (CStr name) c = true -> c = CStr name.
Proof.
  destruct c; simpl; try discriminate.
  intros H. apply String.eqb_eq in H. now subst.
Qed.

(** [save] keeps the table at one row for an image at most. *)
Lemma upserted_one_row_per_image (img : cell) (lbl : string) (g : Z)
    (df : DataFrame) :
  one_row_per_image df -> one_row_per_image (upserted img lbl g df).
Proof.
  intros Hone name. unfold upserted. fold (has_row img df).
  destruct (has_row img df) eqn:Hex.
  - rewrite rows_for_relabel, length_map. apply Hone.
  - rewrite rows_for_append.
    destruct (cell_is (CStr name) img) eqn:Hc.
    + apply cell_is_CStr in Hc. subst img.
      now rewrite (existsb_rows_for _ _ Hex).
    + rewrite app_nil_r, length_map. apply Hone.
Qed.

(** After [save] with a label selected, the current image has a row,
    and its rows carry the label. *)
Lemma upserted_rows_for (name lbl : string) (g : Z) (df : DataFrame) :
  rows_for name (upserted (CStr name) lbl g df) <> [] /\
  Forall (fun r => r !! "label" = Some (CStr lbl))
         (rows_for name (upserted (CStr name) lbl g df)).
Proof.
  unfold upserted. fold (has_row (CStr name) df).
  destruct (has_row (CStr name) df) eqn:Hex.
  - rewrite rows_for_relabel. split.
    + pose proof (rows_for_existsb _ _ Hex) as Hne.
      now destruct (rows_for name df).
    + apply Forall_forall. intros r Hr.
      apply list_elem_of_In, in_map_iff in Hr as (r0 & <- & Hr0).
      apply list_elem_of_In in Hr0.
      apply list_elem_of_filter in Hr0 as [Hm _].
      rewrite mask_is_CStr, Hm. apply lookup_insert_eq.
  - rewrite rows_for_append. simpl. rewrite String.eqb_refl.
    rewrite (existsb_rows_for _ _ Hex). simpl. split; [done|].
    constructor; [|constructor]. apply new_row_label.
Qed.

(** The table after a label has been selected and saved. *)
Lemma relabel_fields (lbl : string) (w : World) :
  "image" ∈ columns (doors_df w) ->
  doors_df (relabel lbl w)
    = upserted (cell_of_name (current_image w)) lbl (door_id w) (doors_df w) /\
  current_image (relabel lbl w) = current_image w /\
  door_id (relabel lbl w) = door_id w /\
  path_to_csv (relabel lbl w) = path_to_csv w /\
  can_write (relabel lbl w) = can_write w.
Proof.
  intros Hc. unfold relabel. rewrite exec_save. simpl.
  rewrite (bool_decide_eq_true_2 _ Hc).
  now destruct (can_write w (path_to_csv w)).
Qed.

Lemma empty_frame_one_row_per_image (cols : list string) :
  one_row_per_image (empty_frame cols).
Proof. intros name. unfold rows_for. simpl. lia. Qed.

(** C2, as the specification states it, fails for a table that
    [load_csv] took from a file with two records of one image: the
    program starts on that file, the user saves the label open and then
    the label closed for the image, and the table still has two rows
    for it, both with the second label. *)
Lemma loaded_table_keeps_repeated_rows :
  outcome startup repeated_world = Ok tt /\
  length (rows_for "a.jpg" (doors_df (exec startup repeated_world))) = 2%nat /\
  current_image (exec startup repeated_world) = Some "a.jpg" /\
  map (fun r => row_get r "label")
      (rows_for "a.jpg"
         (doors_df (run [Click 0; Next; Click 1; Next]
                        (exec startup repeated_world))))
    = [CStr "closed"; CStr "closed"] /\
  map (fun r => row_get r "label")
      (rows_for "a.jpg"
         (doors_df (relabel "closed"
                      (relabel "open" (exec startup repeated_world)))))
    = [CStr "closed"; CStr "closed"].
Proof. vm_compute. repeat split. Qed.

(** C2, amended: [save] does not bring a second row for an image into
    the table.  When the table has one row at most for every image (as
    the empty table has with which the program starts when there is no
    file; [load_csv] takes the rows as the file has them and removes
    none), it still has after the label of the current image is saved
    twice, with two labels, and then the current image has exactly one
    row, and the row carries the second label. *)
Theorem relabel_twice_one_row (w : World) (name l1 l2 : string) :
  current_image w = Some name ->
  "image" ∈ columns (doors_df w) ->
  one_row_per_image (doors_df w) ->
  one_row_per_image (doors_df (relabel l2 (relabel l1 w))) /\
  exists r,
    rows_for name (doors_df (relabel l2 (relabel l1 w))) = [r] /\
    r !! "label" = Some (CStr l2).
Proof.
  intros Himg Hc Hone.
  destruct (relabel_fields l1 w Hc) as (Hd1 & Hi1 & Hg1 & _).
  set (w1 := relabel l1 w) in *.
  assert (Hc1 : "image" ∈ columns (doors_df w1)).
  { rewrite Hd1. now apply upserted_columns. }
  assert (Hone1 : one_row_per_image (doors_df w1)).
  { rewrite Hd1. now apply upserted_one_row_per_image. }
  destruct (relabel_fields l2 w1 Hc1) as (Hd2 & _).
  rewrite Hd2, Hi1, Himg. cbn [cell_of_name].
  assert (Hone2 : one_row_per_image
                    (upserted (CStr name) l2 (door_id w1) (doors_df w1)))
    by now apply upserted_one_row_per_image.
  split; [exact Hone2|].
  destruct (upserted_rows_for name l2 (door_id w1) (doors_df w1)) as [Hne Hall].
  specialize (Hone2 name).
  destruct (rows_for name (upserted (CStr name) l2 (door_id w1) (doors_df w1)))
    as [|r [|r' l]]; [done| |simpl in Hone2; lia].
  exists r. split; [reflexivity|]. now inversion Hall.
Qed.

Lemma relabel_twice_one_row_witness :
  current_image demo_world = Some "b.jpg" /\
  "image" ∈ columns (doors_df demo_world) /\
  one_row_per_image (doors_df demo_world) /\
  exists r,
    rows_for "b.jpg" (doors_df (relabel "closed" (relabel "open" demo_world)))
      = [r] /\
    r !! "label" = Some (CStr "closed").
Proof.
  destruct demo_world_fields as (Ed & Ec & _).
  assert (Hc : "image" ∈ columns (doors_df demo_world)).
  { rewrite Ed. eapply bool_decide_eq_true_1; reflexivity. }
  assert (Hone : one_row_per_image (doors_df demo_world)).
  { rewrite Ed. intros name. unfold rows_for. simpl.
    rewrite filter_cons, filter_nil. case_decide; simpl; lia. }
  split; [exact Ec|]. split; [exact Hc|]. split; [exact Hone|].
  exact (proj2 (relabel_twice_one_row demo_world "b.jpg" "open" "closed"
                  Ec Hc Hone)).
Defined.

(** ** Writing the table and reading it back *)

Lemma filter_all {A} (P : A -> Prop) `{!forall x, Decision (P x)} (l : list A) :
  Forall P l -> filter P l = l.
Proof.
  induction 1 as [|x l Hx Hl IH]; [reflexivity|].
  rewrite filter_cons, decide_True by exact Hx. now rewrite IH.
Qed.

Lemma is_blank_line_long (rec : list string) :
  (2 <= length rec)%nat -> is_blank_line rec = false.
Proof. destruct rec as [|f [|g rec]]; simpl; [lia | lia | reflexivity]. Qed.

(** *** Column names that are kept *)

Lemma dedup_name_fresh (fuel : nat) (counts : gmap string nat) (name : string) :
  counts !! name = None -> dedup_name fuel counts name = (name, counts).
Proof. intros H. destruct fuel; simpl; [reflexivity|]. now rewrite H. Qed.

Lemma mangle_names_id (fuel i : nat) (counts : gmap string nat)
    (names : list string) :
  NoDup names -> Forall (fun c => c <> "" /\ plain c = true) names ->
  (forall n, n ∈ names -> counts !! n = None) ->
  mangle_names fuel i counts names = names.
Proof.
  revert i counts. induction names as [|n names IH];
    intros i counts Hnd Hne Hc; [reflexivity|].
  apply NoDup_cons in Hnd as [Hn Hnd].
  inversion Hne as [|? ? [Hn0 _] Hne']; subst.
  cbn [mangle_names].
  rewrite (proj2 (String.eqb_neq n "") Hn0).
  rewrite dedup_name_fresh by (apply Hc; left).
  f_equal. apply IH; try assumption.
  intros m Hm. rewrite lookup_insert_ne; [apply Hc; now right|].
  intros ->. contradiction.
Qed.

(** Names that are not empty, each its own, are the names of the
    columns as the header has them. *)
Lemma column_names_id (header : list string) :
  NoDup header -> Forall (fun c => c <> "" /\ plain c = true) header ->
  column_names header = header.
Proof. intros Hnd Hne. now apply mangle_names_id. Qed.

(** *** The table that is read from the file of a table *)

Lemma read_csv_to_csv (df : DataFrame) :
  NoDup (columns df) ->
  Forall (fun c => c <> "" /\ plain c = true) (columns df) ->
  (2 <= length (columns df))%nat ->
  read_csv (to_csv df)
  = Ok {| columns := columns df; rows := map (reload df) (rows df) |}.
Proof.
  intros Hnd Hne Hlen. unfold to_csv, read_csv. fold (render df).
  rewrite filter_all.
  2:{ constructor; [now apply is_blank_line_long|].
      apply Forall_forall. intros rec Hin.
      apply list_elem_of_In, in_map_iff in Hin as (r & <- & _).
      apply is_blank_line_long. unfold render. now rewrite length_map. }
  rewrite (column_names_id _ Hnd Hne).
  assert (Hn : expected_fields (columns df) (map (render df) (rows df))
               = length (columns df)).
  { unfold expected_fields. destruct (rows df) as [|r l]; [reflexivity|].
    cbn [map]. unfold render at 1. rewrite length_map. apply Nat.max_id. }
  cbv zeta. rewrite Hn, Nat.sub_diag.
  assert (H : forallb (fun rec => (length rec <=? length (columns df))%nat)
                      (map (render df) (rows df)) = true).
  { apply forallb_forall. intros rec Hin.
    apply in_map_iff in Hin as (r & <- & _).
    unfold render. rewrite length_map. apply Nat.leb_refl. }
  rewrite H. f_equal. f_equal. now rewrite map_map.
Qed.

Lemma lookup_imap_first {B} (g : nat -> string -> B) (l : list string)
    (k : string) :
  k ∈ l ->
  exists j, l !! j = Some k /\
            (list_to_map (imap (fun j c => (c, g j c)) l) : gmap string B) !! k
              = Some (g j k).
Proof.
  revert g. induction l as [|c l IH]; intros g Hk.
  - now apply elem_of_nil in Hk.
  - cbn [imap list_to_map foldr uncurry fst snd].
    destruct (decide (c = k)) as [->|Hne].
    + exists 0%nat. split; [reflexivity|]. apply lookup_insert_eq.
    + apply elem_of_cons in Hk as [->|Hk]; [done|].
      destruct (IH (fun j => g (S j)) Hk) as (j & Hj & Hl).
      exists (S j). split; [exact Hj|].
      rewrite lookup_insert_ne by done. exact Hl.
Qed.

Lemma field_at_render (df : DataFrame) (r : gmap string cell) (j : nat)
    (k : string) :
  columns df !! j = Some k ->
  field_at (render df r) j = text_of_cell (row_get r k).
Proof.
  intros Hj. unfold field_at, render.
  change (map ?f ?l) with (f <$> l).
  now rewrite list_lookup_fmap, Hj.
Qed.

(** A cell of the table read back: the text written for it, parsed
    with the type of its column. *)
Lemma reload_cell (df : DataFrame) (r : gmap string cell) (k : string) :
  k ∈ columns df ->
  reload df r !! k
  = Some (parse_field (infer_dtype (column_texts k df))
                      (text_of_cell (row_get r k))).
Proof.
  intros Hk. unfold reload, read_record.
  destruct (lookup_imap_first
              (fun j (_ : string) =>
                 parse_field
                   (infer_dtype
                      (column_fields (map (render df) (rows df)) (0 + j)))
                   (field_at (render df r) (0 + j)))
              (columns df) k Hk) as (j & Hj & Hl).
  rewrite Hl. cbn [Nat.add]. f_equal.
  rewrite (field_at_render df r j k Hj). f_equal. f_equal.
  unfold column_fields, column_texts. rewrite map_map.
  apply map_ext. intros r'. now apply field_at_render.
Qed.

(** *** Fields that are kept as text *)

Lemma keeps_text_parts (t : string) :
  keeps_text t = true ->
  is_na t = false /\ is_number t = false /\ is_bool t = false /\
  plain t = true.
Proof.
  unfold keeps_text. intros H.
  apply andb_true_iff in H as [H Hp].
  apply andb_true_iff in H as [H Hb].
  apply andb_true_iff in H as [Hna Hnum].
  now apply negb_true_iff in Hna, Hnum, Hb.
Qed.

Lemma keeps_text_not_na (t : string) : keeps_text t = true -> is_na t = false.
Proof. intros H. apply keeps_text_parts in H. tauto. Qed.

Lemma space_is_no_mark (a : ascii) :
  is_space_ascii a = true ->
  Ascii.eqb a "."%char = false /\
  (Ascii.eqb a "e"%char || Ascii.eqb a "E"%char) = false.
Proof.
  destruct a as [[] [] [] [] [] [] [] []]; cbv; intros H;
    (discriminate H || (split; reflexivity)).
Qed.

Lemma skip_spaces_empty (s : string) :
  skip_spaces s = "" ->
  skip_fraction s = (O, s) /\ skip_exponent s = Some s.
Proof.
  destruct s as [|a s]; [done|]. cbn [skip_spaces].
  destruct (is_space_ascii a) eqn:Ha; [|discriminate].
  intros _. destruct (space_is_no_mark a Ha) as [H1 H2].
  cbn [skip_fraction skip_exponent]. now rewrite H1, H2.
Qed.

(** An integer literal is a literal of a number. *)
Lemma is_int_is_decimal (s : string) : is_int s = true -> is_decimal s = true.
Proof.
  unfold is_int, int_literal, is_decimal.
  destruct (skip_digits (skip_sign (skip_spaces s))) as [n r].
  destruct (n =? 0)%nat eqn:En; [discriminate|].
  destruct (String.eqb (skip_spaces r) "") eqn:Er; [|discriminate].
  intros _. apply String.eqb_eq in Er.
  destruct (skip_spaces_empty r Er) as [-> Hx].
  rewrite Nat.add_0_r, En, Hx. now rewrite Er.
Qed.

Lemma infer_dtype_keeps_text (fields : list string) (t : string) :
  In t fields -> keeps_text t = true -> infer_dtype fields = DObject.
Proof.
  intros Hin Hk. apply keeps_text_parts in Hk as (Hna & Hnum & Hb & _).
  assert (Hv : In t (filter (fun f => is_na f = false) fields)).
  { apply list_elem_of_In, list_elem_of_filter.
    split; [exact Hna | now apply list_elem_of_In]. }
  unfold infer_dtype.
  destruct (forallb is_int _) eqn:E0.
  { rewrite forallb_forall in E0. specialize (E0 t Hv).
    apply is_int_is_decimal in E0. unfold is_number in Hnum.
    rewrite E0 in Hnum. discriminate. }
  cbn [andb].
  destruct (forallb is_number _) eqn:E1.
  { rewrite forallb_forall in E1. specialize (E1 t Hv). congruence. }
  destruct (forallb is_bool _) eqn:E2.
  { rewrite forallb_forall in E2. specialize (E2 t Hv). congruence. }
  reflexivity.
Qed.

(** *** The text of a Python int is a number *)

Lemma skip_digits_digits (d : Decimal.uint) :
  skip_digits (digits_of_uint d) = (Decimal.nb_digits d, "").
Proof.
  induction d as [|d IH|d IH|d IH|d IH|d IH|d IH|d IH|d IH|d IH|d IH];
    simpl; rewrite ?IH; reflexivity.
Qed.

Lemma digits_first_not_space (d : Decimal.uint) :
  skip_spaces (digits_of_uint d) = digits_of_uint d.
Proof. destruct d; reflexivity. Qed.

Lemma digits_first_not_sign (d : Decimal.uint) :
  skip_sign (digits_of_uint d) = digits_of_uint d.
Proof. destruct d; reflexivity. Qed.

Lemma is_decimal_digits (d : Decimal.uint) :
  d <> Decimal.Nil -> is_decimal (digits_of_uint d) = true.
Proof.
  intros Hd. unfold is_decimal.
  rewrite digits_first_not_space, digits_first_not_sign, skip_digits_digits.
  simpl. destruct d; [done|..]; reflexivity.
Qed.

Lemma is_decimal_minus_digits (d : Decimal.uint) :
  d <> Decimal.Nil -> is_decimal (String "-" (digits_of_uint d)) = true.
Proof.
  intros Hd. unfold is_decimal.
  change (skip_sign (skip_spaces (String "-" (digits_of_uint d))))
    with (digits_of_uint d).
  rewrite skip_digits_digits. simpl. destruct d; [done|..]; reflexivity.
Qed.

Lemma is_number_str_of_int (z : Z) : is_number (str_of_int z) = true.
Proof.
  unfold is_number, str_of_int. apply orb_true_iff. left.
  destruct z as [|p|p]; simpl.
  - reflexivity.
  - apply is_decimal_digits, DecimalPos.Unsigned.to_uint_nonnil.
  - apply is_decimal_minus_digits, DecimalPos.Unsigned.to_uint_nonnil.
Qed.

Lemma skip_digits_app (d : Decimal.uint) (s : string) :
  skip_digits (digits_of_uint d +:+ s)
  = ((Decimal.nb_digits d + fst (skip_digits s))%nat, snd (skip_digits s)).
Proof.
  induction d as [|d IH|d IH|d IH|d IH|d IH|d IH|d IH|d IH|d IH|d IH];
    simpl; rewrite ?IH; [|reflexivity ..].
  change (skip_digits s = ((skip_digits s).1, (skip_digits s).2)).
  now destruct (skip_digits s).
Qed.

Lemma is_decimal_digits_point (d : Decimal.uint) :
  d <> Decimal.Nil -> is_decimal (digits_of_uint d +:+ ".0") = true.
Proof.
  intros Hd. unfold is_decimal.
  assert (Hs : skip_sign (skip_spaces (digits_of_uint d +:+ ".0"))
               = digits_of_uint d +:+ ".0") by (destruct d; done).
  rewrite Hs, skip_digits_app. simpl. destruct d; [done|..]; reflexivity.
Qed.

Lemma is_decimal_minus_digits_point (d : Decimal.uint) :
  d <> Decimal.Nil ->
  is_decimal (String "-" (digits_of_uint d) +:+ ".0") = true.
Proof.
  intros Hd. unfold is_decimal.
  change (skip_sign (skip_spaces (String "-" (digits_of_uint d) +:+ ".0")))
    with (digits_of_uint d +:+ ".0").
  rewrite skip_digits_app. simpl. destruct d; [done|..]; reflexivity.
Qed.

Lemma is_number_float_text (z : Z) : is_number (str_of_int z +:+ ".0") = true.
Proof.
  unfold is_number, str_of_int. apply orb_true_iff. left.
  destruct z as [|p|p]; simpl Z.to_int; cbv iota.
  - reflexivity.
  - apply is_decimal_digits_point, DecimalPos.Unsigned.to_uint_nonnil.
  - apply is_decimal_minus_digits_point, DecimalPos.Unsigned.to_uint_nonnil.
Qed.

(** *** Tables that are written as they are *)

Lemma cell_ok_float_of_int (z : Z) : cell_ok (float_of_int z) = true.
Proof.
  unfold float_of_int. destruct (Z.abs z <=? 2 ^ 53); cbn [cell_ok].
  - apply is_number_float_text.
  - apply is_number_str_of_int.
Qed.

Lemma cell_ok_to_float (c : cell) : cell_ok c = true -> cell_ok (to_float c) = true.
Proof. destruct c; try done. intros _. apply cell_ok_float_of_int. Qed.

(** The cell whose text is a text that [read_csv] keeps is the string
    of that text. *)
Lemma cell_ok_text (c : cell) (name : string) :
  cell_ok c = true -> keeps_text name = true ->
  text_of_cell c = name -> c = CStr name.
Proof.
  intros Hok Hk Ht. apply keeps_text_parts in Hk as (Hna & Hnum & Hb & _).
  destruct c as [s|z|lit|b| |]; simpl in *; subst.
  - reflexivity.
  - now rewrite is_number_str_of_int in Hnum.
  - congruence.
  - destruct b; vm_compute in Hb; discriminate.
  - discriminate.
  - discriminate.
Qed.

Lemma row_get_ok (r : gmap string cell) (k : string) :
  map_Forall (fun _ c => cell_ok c = true) r -> cell_ok (row_get r k) = true.
Proof.
  intros Hr. unfold row_get. destruct (r !! k) as [c|] eqn:E; [|reflexivity].
  exact (Hr k c E).
Qed.

Lemma table_ok_empty : table_ok (empty_frame ["image"; "label"; "door_id"]).
Proof.
  split; [|split].
  - eapply bool_decide_eq_true_1; reflexivity.
  - repeat constructor; done.
  - constructor.
Qed.

Lemma upcast_row_ok (cs : list string) (r : gmap string cell) :
  map_Forall (fun _ c => cell_ok c = true) r ->
  map_Forall (fun _ c => cell_ok c = true) (upcast_row cs r).
Proof.
  intros Hr. induction cs as [|c cs IH]; [exact Hr|]. cbn [upcast_row foldr].
  destruct (r !! c) as [[]|]; try exact IH.
  apply map_Forall_insert_2; [apply cell_ok_float_of_int | exact IH].
Qed.

Lemma key_names_ok (l : list string) :
  Forall (fun c => c <> "" /\ plain c = true)
         (filter (fun k => k ∉ l) ["door_id"; "image"; "label"]).
Proof.
  apply Forall_forall. intros k Hk.
  apply list_elem_of_filter in Hk as [_ Hk].
  repeat (apply elem_of_cons in Hk as [->|Hk]; [done|]).
  now apply elem_of_nil in Hk.
Qed.

Lemma upserted_columns_ok (img : cell) (lbl : string) (g : Z) (df : DataFrame) :
  NoDup (columns df) ->
  Forall (fun c => c <> "" /\ plain c = true) (columns df) ->
  NoDup (columns (upserted img lbl g df)) /\
  Forall (fun c => c <> "" /\ plain c = true) (columns (upserted img lbl g df)).
Proof.
  intros Hnd Hne. unfold upserted, loc_set, append.
  destruct (existsb _ _); cbn [columns map fst].
  - case_bool_decide as Hl; [done|]. split.
    + apply NoDup_app. split; [exact Hnd|]. split.
      * intros x Hx Hx'. apply list_elem_of_singleton in Hx'. now subst.
      * apply NoDup_singleton.
    + apply Forall_app. split; [exact Hne|]. now repeat constructor.
  - split.
    + apply NoDup_app. split; [exact Hnd|]. split.
      * intros x Hx Hx'. now apply list_elem_of_filter in Hx' as [Hn _].
      * apply NoDup_filter. eapply bool_decide_eq_true_1; reflexivity.
    + apply Forall_app. split; [exact Hne | apply key_names_ok].
Qed.

(** [save] keeps a table such a table, when the name of the image and
    the label are plain texts. *)
Lemma table_ok_upserted (img : cell) (lbl : string) (g : Z) (df : DataFrame) :
  cell_ok img = true -> plain lbl = true ->
  table_ok df -> table_ok (upserted img lbl g df).
Proof.
  intros Hi Hl (Hnd & Hne & Hok).
  destruct (upserted_columns_ok img lbl g df Hnd Hne) as [Hnd' Hne'].
  split; [exact Hnd'|]. split; [exact Hne'|].
  unfold upserted. destruct (existsb _ _); cbn [rows loc_set append].
  - apply Forall_forall. intros r Hr.
    apply list_elem_of_In, in_map_iff in Hr as (r0 & <- & Hr0).
    apply list_elem_of_In in Hr0.
    pose proof (proj1 (Forall_forall _ _) Hok r0 Hr0) as H0.
    destruct (mask_is _ _); [|exact H0].
    now apply map_Forall_insert_2.
  - apply Forall_app. split.
    + apply Forall_forall. intros r Hr.
      apply list_elem_of_In, in_map_iff in Hr as (r0 & <- & Hr0).
      apply list_elem_of_In in Hr0.
      apply upcast_row_ok. exact (proj1 (Forall_forall _ _) Hok r0 Hr0).
    + constructor; [|constructor].
      unfold new_row. cbn [map fst snd list_to_map foldr uncurry].
      apply map_Forall_insert_2;
        [destruct (float_column _ _); [apply cell_ok_float_of_int | done]|].
      apply map_Forall_insert_2;
        [destruct (float_column _ _); [now apply cell_ok_to_float | done]|].
      apply map_Forall_insert_2; [now destruct (float_column _ _)|].
      apply map_Forall_empty.
Qed.

(** *** The name of an image file is kept as text *)

Lemma last_char_cons (a : ascii) (s : string) (c : ascii) :
  last_char s = Some c -> last_char (String a s) = Some c.
Proof. destruct s; [discriminate | trivial]. Qed.

Lemma endswith_last_char (suffix s : string) (c : ascii) :
  last_char suffix = Some c -> endswith suffix s = true ->
  last_char s = Some c.
Proof.
  intros Hs. induction s as [|a s IH]; cbn [endswith]; intros H.
  - apply orb_true_iff in H as [H|H]; [|discriminate].
    apply String.eqb_eq in H. now subst.
  - apply orb_true_iff in H as [H|H].
    + apply String.eqb_eq in H. now rewrite H.
    + now apply last_char_cons, IH.
Qed.

Lemma is_image_file_last_char (file : string) :
  is_image_file file = true -> last_char file = Some "g"%char.
Proof.
  unfold is_image_file. intros H. apply orb_true_iff in H as [H|H].
  - now apply (endswith_last_char ".jpg").
  - now apply (endswith_last_char ".png").
Qed.

Lemma skip_spaces_last_char (s : string) :
  last_char s = Some "g"%char -> last_char (skip_spaces s) = Some "g"%char.
Proof.
  induction s as [|a s IH]; [discriminate|]. intros H. cbn [skip_spaces].
  destruct (is_space_ascii a) eqn:Ha; [|exact H].
  apply IH. destruct s; [|exact H]. injection H as ->. discriminate.
Qed.

Lemma skip_sign_last_char (s : string) :
  last_char s = Some "g"%char -> last_char (skip_sign s) = Some "g"%char.
Proof.
  destruct s as [|a s]; [discriminate|]. intros H. cbn [skip_sign].
  destruct (Ascii.eqb a "+" || Ascii.eqb a "-") eqn:Ha; [|exact H].
  destruct s; [|exact H]. injection H as ->. discriminate.
Qed.

Lemma skip_digits_last_char (s : string) :
  last_char s = Some "g"%char ->
  last_char (snd (skip_digits s)) = Some "g"%char.
Proof.
  induction s as [|a s IH]; [discriminate|]. intros H. cbn [skip_digits].
  destruct (is_digit a) eqn:Ha; [|exact H].
  assert (Hs : last_char s = Some "g"%char).
  { destruct s; [|exact H]. injection H as ->. discriminate. }
  specialize (IH Hs). now destruct (skip_digits s).
Qed.

Lemma skip_fraction_last_char (s : string) :
  last_char s = Some "g"%char ->
  last_char (snd (skip_fraction s)) = Some "g"%char.
Proof.
  destruct s as [|a s]; [discriminate|]. intros H. cbn [skip_fraction].
  destruct (Ascii.eqb a ".") eqn:Ha; [|exact H].
  apply skip_digits_last_char.
  destruct s; [|exact H]. injection H as ->. discriminate.
Qed.

Lemma skip_exponent_last_char (s r : string) :
  last_char s = Some "g"%char -> skip_exponent s = Some r ->
  last_char r = Some "g"%char.
Proof.
  destruct s as [|a s]; [discriminate|]. intros H. cbn [skip_exponent].
  destruct (Ascii.eqb a "e" || Ascii.eqb a "E") eqn:Ha.
  - assert (Hs : last_char s = Some "g"%char).
    { destruct s; [|exact H]. injection H as ->. discriminate. }
    pose proof (skip_digits_last_char _ (skip_sign_last_char _ Hs)) as Hd.
    destruct (skip_digits (skip_sign s)) as [n r']. simpl in Hd.
    destruct (n =? 0)%nat; [discriminate|]. now intros [= <-].
  - now intros [= <-].
Qed.

Lemma is_decimal_last_char (s : string) :
  last_char s = Some "g"%char -> is_decimal s = false.
Proof.
  intros H. unfold is_decimal.
  pose proof (skip_digits_last_char _
                (skip_sign_last_char _ (skip_spaces_last_char _ H))) as H1.
  destruct (skip_digits (skip_sign (skip_spaces s))) as [n1 s1]. simpl in H1.
  pose proof (skip_fraction_last_char _ H1) as H2.
  destruct (skip_fraction s1) as [n2 s2]. simpl in H2.
  destruct (n1 + n2 =? 0)%nat; [reflexivity|].
  destruct (skip_exponent s2) as [s3|] eqn:E; [|reflexivity].
  pose proof (skip_spaces_last_char _ (skip_exponent_last_char _ _ H2 E)) as H3.
  now destruct (skip_spaces s3).
Qed.

Lemma last_char_lower (s : string) :
  last_char s = Some "g"%char -> last_char (lower s) = Some "g"%char.
Proof.
  induction s as [|a s IH]; [discriminate|]. intros H. cbn [lower].
  destruct s as [|b s].
  - now injection H as ->.
  - apply last_char_cons. now apply IH.
Qed.

Lemma not_in_by_last_char (s : string) (l : list string) :
  last_char s = Some "g"%char ->
  forallb (fun t => negb (bool_decide (last_char t = Some "g"%char))) l = true ->
  bool_decide (s ∈ l) = false.
Proof.
  intros Hs Hl. apply bool_decide_eq_false. intros Hin.
  rewrite forallb_forall in Hl.
  specialize (Hl s (proj1 (list_elem_of_In _ _) Hin)).
  apply negb_true_iff, bool_decide_eq_false in Hl. contradiction.
Qed.

(** The names [load_image_files] takes are strings that [read_csv]
    leaves as they are, when they are plain. *)
Lemma is_image_file_keeps_text (file : string) :
  is_image_file file = true -> plain file = true -> keeps_text file = true.
Proof.
  intros H Hp. apply is_image_file_last_char in H.
  unfold keeps_text, is_na, is_number, is_bool, is_inf.
  rewrite (is_decimal_last_char _ H), Hp.
  rewrite !(not_in_by_last_char file) by (exact H || reflexivity).
  rewrite !(not_in_by_last_char (lower file))
    by (now apply last_char_lower || reflexivity).
  reflexivity.
Qed.

(** *** Saving a label and loading the table again *)

Lemma upserted_has_label (img : cell) (lbl : string) (g : Z) (df : DataFrame) :
  "label" ∈ columns (upserted img lbl g df).
Proof.
  unfold upserted, loc_set, append.
  destruct (existsb _ _); cbn [columns].
  - case_bool_decide; [done|]. apply elem_of_app. right. now left.
  - destruct (decide ("label" ∈ columns df)) as [Hin|Hin].
    + apply elem_of_app. now left.
    + apply elem_of_app. right. apply list_elem_of_filter.
      split; [exact Hin|]. cbn [map fst]. right. right. now left.
Qed.

Lemma two_columns (l : list string) :
  "image" ∈ l -> "label" ∈ l -> (2 <= length l)%nat.
Proof.
  destruct l as [|a [|b l]]; intros Hi Hl; [| |simpl; lia].
  - now apply elem_of_nil in Hi.
  - apply list_elem_of_singleton in Hi, Hl. congruence.
Qed.

Lemma relabel_eq (lbl : string) (w : World) :
  "image" ∈ columns (doors_df w) ->
  can_write w (path_to_csv w) = true ->
  relabel lbl w = saved lbl (set_current_label (Some lbl) w).
Proof.
  intros Hc Hcw. unfold relabel. rewrite exec_save. simpl.
  now rewrite (bool_decide_eq_true_2 _ Hc), Hcw.
Qed.

(** The table that [load_csv] finds after a label has been saved. *)
Lemma load_csv_relabel (lbl : string) (w : World) :
  let df := upserted (cell_of_name (current_image w)) lbl (door_id w)
                     (doors_df w) in
  "image" ∈ columns (doors_df w) ->
  can_write w (path_to_csv w) = true ->
  NoDup (columns df) ->
  Forall (fun c => c <> "" /\ plain c = true) (columns df) ->
  load_csv (relabel lbl w)
  = (Ok tt,
     set_doors_df {| columns := columns df; rows := map (reload df) (rows df) |}
                  (relabel lbl w)).
Proof.
  intros df Hc Hcw Hnd Hne. rewrite (relabel_eq lbl w Hc Hcw).
  assert (Hr : read_csv (to_csv df)
               = Ok {| columns := columns df;
                       rows := map (reload df) (rows df) |}).
  { apply read_csv_to_csv; try assumption.
    apply two_columns; [now apply upserted_columns|apply upserted_has_label]. }
  unfold load_csv, bind, get, lift, modify.
  cbn [saved stored csv_files path_to_csv doors_df write_file set_doors_df
       set_current_label current_image door_id].
  rewrite lookup_insert_eq. fold df. now rewrite Hr.
Qed.

Lemma rows_for_reload (name : string) (df : DataFrame) :
  "image" ∈ columns df ->
  Forall (map_Forall (fun _ c => cell_ok c = true)) (rows df) ->
  keeps_text name = true ->
  rows_for name df <> [] ->
  rows_for name {| columns := columns df; rows := map (reload df) (rows df) |}
  = map (reload df) (rows_for name df).
Proof.
  intros Hc Hok Hk Hne.
  assert (Hd : infer_dtype (column_texts "image" df) = DObject).
  { destruct (rows_for name df) as [|r0 l] eqn:E; [done|].
    assert (Hr0 : r0 ∈ rows_for name df) by (rewrite E; left).
    apply list_elem_of_filter in Hr0 as [Hm Hin].
    apply cell_is_CStr in Hm.
    apply (infer_dtype_keeps_text _ name); [|exact Hk].
    unfold column_texts. apply in_map_iff. exists r0.
    rewrite Hm. split; [reflexivity | now apply list_elem_of_In]. }
  unfold rows_for. cbn [rows].
  clear Hne. revert Hok.
  generalize (rows df) as l.
  induction l as [|r l IH]; intros Hok; [reflexivity|].
  apply Forall_cons in Hok as [Hr Hl]. specialize (IH Hl).
  cbn [map]. rewrite !filter_cons.
  assert (Hiff : cell_is (CStr name) (row_get (reload df r) "image")
                 = cell_is (CStr name) (row_get r "image")).
  { unfold row_get at 1. rewrite (reload_cell df r "image" Hc), Hd.
    cbn [default from_option id]. unfold parse_field.
    pose proof (row_get_ok r "image" Hr) as Hcok.
    destruct (is_na (text_of_cell (row_get r "image"))) eqn:Hna.
    - destruct (cell_is (CStr name) (row_get r "image")) eqn:Hci; [|reflexivity].
      apply cell_is_CStr in Hci. rewrite Hci in Hna. simpl in Hna.
      rewrite (keeps_text_not_na _ Hk) in Hna. discriminate.
    - unfold cell_is at 1. cbv beta iota.
      destruct (String.eqb name (text_of_cell (row_get r "image")))
        eqn:He.
      + apply String.eqb_eq in He. symmetry in He.
        rewrite (cell_ok_text _ _ Hcok Hk He). simpl.
        symmetry. apply String.eqb_refl.
      + destruct (cell_is (CStr name) (row_get r "image")) eqn:Hci;
          [|reflexivity].
        apply cell_is_CStr in Hci. rewrite Hci in He. simpl in He.
        now rewrite String.eqb_refl in He. }
  rewrite Hiff. case_decide; cbn [map]; now rewrite IH.
Qed.

(** C1, as the specification states it, fails for a label that
    [read_csv] takes for a missing value: with NA among the labels,
    the user saves the label NA for b.jpg, which writes the table to
    its file, and the table loaded from that file has a missing value
    as the label of b.jpg. *)
Lemma label_NA_is_lost :
  current_image na_world = Some "b.jpg" /\
  current_label na_world = None /\
  map (fun r => row_get r "label")
      (rows_for "b.jpg" (doors_df (relabel "NA" na_world)))
    = [CStr "NA"] /\
  doors_df (run [Click 1; Next] na_world) = doors_df (relabel "NA" na_world) /\
  outcome load_csv (relabel "NA" na_world) = Ok tt /\
  map (fun r => row_get r "label")
      (rows_for "b.jpg" (doors_df (exec load_csv (relabel "NA" na_world))))
    = [CNaN].
Proof. vm_compute. repeat split. Qed.

(** C1, amended: let the name of the current image and the label be
    texts that [read_csv] gives back as they are (no marker of a
    missing value such as the empty string or NA, no number, no
    boolean such as true or TRUE, and without a carriage return or a
    NUL character; the names of image files, which end in .jpg or
    .png, and the labels open and closed are such texts), let the table
    be one that has its [image] column, whose columns have names of
    their own and whose texts are plain as well, and let the file of
    the table be one that can be written.  Then, after the label is
    saved for the current image, which writes the table to its file,
    [load_csv] from the same path returns, and in the table it loads
    the image has a row and every row of the image carries exactly
    that label. *)
Theorem save_then_load_keeps_label (w : World) (name lbl : string) :
  current_image w = Some name ->
  "image" ∈ columns (doors_df w) ->
  table_ok (doors_df w) ->
  can_write w (path_to_csv w) = true ->
  keeps_text name = true ->
  keeps_text lbl = true ->
  outcome load_csv (relabel lbl w) = Ok tt /\
  rows_for name (doors_df (exec load_csv (relabel lbl w))) <> [] /\
  Forall (fun r => r !! "label" = Some (CStr lbl))
         (rows_for name (doors_df (exec load_csv (relabel lbl w)))).
Proof.
  intros Himg Hc Hok Hcw Hkn Hkl.
  pose proof (keeps_text_parts _ Hkn) as (_ & _ & _ & Hpn).
  pose proof (keeps_text_parts _ Hkl) as (_ & _ & _ & Hpl).
  set (df1 := upserted (CStr name) lbl (door_id w) (doors_df w)).
  assert (Hok1 : table_ok df1) by now apply table_ok_upserted.
  destruct Hok1 as (Hnd1 & Hne1 & Hcells1).
  pose proof (load_csv_relabel lbl w Hc Hcw) as Hload.
  rewrite Himg in Hload. cbn [cell_of_name] in Hload. fold df1 in Hload.
  specialize (Hload Hnd1 Hne1).
  unfold outcome, exec. rewrite Hload. cbn [fst snd doors_df set_doors_df].
  split; [reflexivity|].
  assert (Hc1 : "image" ∈ columns df1) by now apply upserted_columns.
  destruct (upserted_rows_for name lbl (door_id w) (doors_df w))
    as [Hne Hall]. fold df1 in Hne, Hall.
  rewrite (rows_for_reload name df1 Hc1 Hcells1 Hkn Hne).
  split.
  - now destruct (rows_for name df1).
  - assert (Hl1 : "label" ∈ columns df1) by apply upserted_has_label.
    assert (Hd : infer_dtype (column_texts "label" df1) = DObject).
    { destruct (rows_for name df1) as [|r0 l] eqn:E; [done|].
      assert (Hr0 : r0 ∈ rows_for name df1) by (rewrite E; left).
      apply list_elem_of_filter in Hr0 as [_ Hin].
      apply (infer_dtype_keeps_text _ lbl); [|exact Hkl].
      unfold column_texts. apply in_map_iff. exists r0.
      inversion Hall as [|? ? Hlab _]; subst.
      unfold row_get. rewrite Hlab.
      split; [reflexivity | now apply list_elem_of_In]. }
    apply Forall_forall. intros r Hr.
    apply list_elem_of_In, in_map_iff in Hr as (r1 & <- & Hr1).
    apply list_elem_of_In in Hr1.
    pose proof (proj1 (Forall_forall _ _) Hall r1 Hr1) as Hlab.
    cbv beta in Hlab.
    rewrite (reload_cell df1 r1 "label" Hl1), Hd.
    unfold row_get. rewrite Hlab. cbn [default from_option id text_of_cell].
    unfold parse_field. now rewrite (keeps_text_not_na _ Hkl).
Qed.

Lemma save_then_load_keeps_label_witness :
  current_image demo_world = Some "b.jpg" /\
  "image" ∈ columns (doors_df demo_world) /\
  table_ok (doors_df demo_world) /\
  can_write demo_world (path_to_csv demo_world) = true /\
  keeps_text "b.jpg" = true /\
  keeps_text "closed" = true /\
  map (fun r => row_get r "label")
      (rows_for "b.jpg"
         (doors_df (exec load_csv (relabel "closed" demo_world))))
    = [CStr "closed"].
Proof.
  destruct demo_world_fields as (Ed & Ec & _).
  assert (Hc : "image" ∈ columns (doors_df demo_world)).
  { rewrite Ed. eapply bool_decide_eq_true_1; reflexivity. }
  assert (Hok : table_ok (doors_df demo_world)).
  { rewrite Ed. eapply bool_decide_eq_true_1; vm_compute; reflexivity. }
  assert (Hcw : can_write demo_world (path_to_csv demo_world) = true)
    by (vm_compute; reflexivity).
  assert (Hkn : keeps_text "b.jpg" = true) by (vm_compute; reflexivity).
  assert (Hkl : keeps_text "closed" = true) by (vm_compute; reflexivity).
  pose proof (save_then_load_keeps_label demo_world "b.jpg" "closed"
                Ec Hc Hok Hcw Hkn Hkl) as (_ & _ & Hall).
  split; [exact Ec|]. split; [exact Hc|]. split; [exact Hok|].
  split; [exact Hcw|]. split; [exact Hkn|]. split; [exact Hkl|].
  assert (E : length (rows_for "b.jpg"
                (doors_df (exec load_csv (relabel "closed" demo_world))))
              = 1%nat) by (vm_compute; reflexivity).
  destruct (rows_for "b.jpg"
              (doors_df (exec load_csv (relabel "closed" demo_world))))
    as [|r [|r' l]]; [discriminate E| |discriminate E].
  inversion Hall as [|? ? Hlab _]; subst.
  simpl. unfold row_get. now rewrite Hlab.
Defined.

(** * Further properties of the program *)

(** ** A table without an image column *)

Lemma outcome_bind_raise {A B} (m : M A) (k : A -> M B) (w : World) (e : exn) :
  outcome m w = Raise e -> outcome (bind m k) w = Raise e.
Proof. unfold outcome, bind. destruct (m w) as [[a|e'] w']; simpl; congruence. Qed.

Lemma skip_image_leaves_store_index (w : World) :
  current_image_index (exec skip_image w)
    = forward (Z.of_nat (length (image_files w))) (current_image_index w).
Proof.
  unfold skip_image. rewrite next_image_eq. simpl.
  match goal with |- context [exec load_image ?x] =>
    destruct (load_image_frame x) as (_ & _ & _ & Hi & _) end.
  now rewrite Hi.
Qed.

(** X1: with a label selected and a table that has no column named
    image (a file of another layout was loaded), the handlers of
    "next" and "previous" raise KeyError out of [save] and leave the
    whole world as it was, the image index included: the user cannot
    move on with them.  [skip_image] still moves the index forward. *)
Theorem navigation_stuck_without_image_column (w : World) :
  current_label w <> None ->
  "image" ∉ columns (doors_df w) ->
  (outcome (next_image false) w = Raise (KeyError "image") /\
   exec (next_image false) w = w) /\
  (outcome previous_image w = Raise (KeyError "image") /\
   exec previous_image w = w) /\
  current_image_index (exec skip_image w)
    = forward (Z.of_nat (length (image_files w))) (current_image_index w).
Proof.
  intros Hl Hc.
  assert (Hs : save w = (Raise (KeyError "image"), w)).
  { rewrite save_eq. destruct (current_label w); [|done].
    now rewrite (bool_decide_eq_false_2 _ Hc). }
  repeat split.
  - unfold outcome, next_image, bind. simpl. now rewrite Hs.
  - unfold exec, next_image, bind. simpl. now rewrite Hs.
  - unfold outcome, previous_image, bind. now rewrite Hs.
  - unfold exec, previous_image, bind. now rewrite Hs.
  - apply skip_image_leaves_store_index.
Qed.

Lemma navigation_stuck_without_image_column_witness :
  current_label no_image_column_world <> None /\
  ("image" ∉ columns (doors_df no_image_column_world)) /\
  exec (next_image false) no_image_column_world = no_image_column_world /\
  current_image_index (exec skip_image no_image_column_world) = 1.
Proof.
  assert (Hl : current_label no_image_column_world <> None)
    by (vm_compute; discriminate).
  assert (Hc : "image" ∉ columns (doors_df no_image_column_world)).
  { eapply bool_decide_eq_false_1. vm_compute. reflexivity. }
  destruct (navigation_stuck_without_image_column _ Hl Hc)
    as ((_ & Hn) & _ & Hs).
  split; [exact Hl|]. split; [exact Hc|]. split; [exact Hn|].
  rewrite Hs. vm_compute. reflexivity.
Defined.

(** ** A table file that cannot be written *)

(** X2: when the file of the table cannot be written (the directory
    of the path is not there, say), the handlers of "next" and
    "previous" raise OSError out of [save] with a label selected: the
    label is in the table in memory, nothing is written, and the image
    index stays where it is, so that the user cannot move on with
    them.  [skip_image] still moves the index forward. *)
Theorem navigation_stuck_without_writable_file (w : World) (lbl : string) :
  current_label w = Some lbl ->
  "image" ∈ columns (doors_df w) ->
  can_write w (path_to_csv w) = false ->
  (outcome (next_image false) w = Raise (OSError (path_to_csv w)) /\
   exec (next_image false) w = stored lbl w) /\
  (outcome previous_image w = Raise (OSError (path_to_csv w)) /\
   exec previous_image w = stored lbl w) /\
  doors_df (stored lbl w)
    = upserted (cell_of_name (current_image w)) lbl (door_id w) (doors_df w) /\
  csv_files (stored lbl w) = csv_files w /\
  written (stored lbl w) = written w /\
  current_image_index (stored lbl w) = current_image_index w /\
  current_image_index (exec skip_image w)
    = forward (Z.of_nat (length (image_files w))) (current_image_index w).
Proof.
  intros Hl Hc Hcw.
  assert (Hs : save w = (Raise (OSError (path_to_csv w)), stored lbl w)).
  { rewrite save_eq, Hl, Hcw. now rewrite (bool_decide_eq_true_2 _ Hc). }
  repeat split.
  - unfold outcome, next_image, bind. simpl. now rewrite Hs.
  - unfold exec, next_image, bind. simpl. now rewrite Hs.
  - unfold outcome, previous_image, bind. now rewrite Hs.
  - unfold exec, previous_image, bind. now rewrite Hs.
  - apply skip_image_leaves_store_index.
Qed.

Lemma navigation_stuck_without_writable_file_witness :
  current_label no_directory_world = Some "open" /\
  "image" ∈ columns (doors_df no_directory_world) /\
  can_write no_directory_world (path_to_csv no_directory_world) = false /\
  outcome (next_image false) no_directory_world
    = Raise (OSError "doors/doors.csv") /\
  current_image_index (exec (next_image false) no_directory_world) = 0 /\
  written (exec (next_image false) no_directory_world) = [].
Proof.
  assert (Hl : current_label no_directory_world = Some "open")
    by (vm_compute; reflexivity).
  assert (Hc : "image" ∈ columns (doors_df no_directory_world)).
  { eapply bool_decide_eq_true_1. vm_compute. reflexivity. }
  assert (Hcw : can_write no_directory_world (path_to_csv no_directory_world)
                = false) by (vm_compute; reflexivity).
  destruct (navigation_stuck_without_writable_file _ "open" Hl Hc Hcw)
    as ((Ho & He) & _ & _ & _ & Hw & Hi & _).
  split; [exact Hl|]. split; [exact Hc|]. split; [exact Hcw|].
  split; [rewrite Ho; vm_compute; reflexivity|].
  rewrite He, Hw, Hi. split; vm_compute; reflexivity.
Defined.

(** ** What the label handlers leave alone *)

Lemma previous_label_frame (w : World) :
  doors_df (exec previous_label w) = doors_df w /\
  csv_files (exec previous_label w) = csv_files w /\
  written (exec previous_label w) = written w /\
  path_to_csv (exec previous_label w) = path_to_csv w /\
  current_image_index (exec previous_label w) = current_image_index w /\
  current_image (exec previous_label w) = current_image w /\
  image_files (exec previous_label w) = image_files w /\
  can_write (exec previous_label w) = can_write w.
Proof.
  unfold previous_label, selection_clear_all, selection_set.
  run_handler. crush.
Qed.

Lemma next_label_frame (w : World) :
  doors_df (exec next_label w) = doors_df w /\
  csv_files (exec next_label w) = csv_files w /\
  written (exec next_label w) = written w /\
  path_to_csv (exec next_label w) = path_to_csv w /\
  current_image_index (exec next_label w) = current_image_index w /\
  current_image (exec next_label w) = current_image w /\
  image_files (exec next_label w) = image_files w /\
  can_write (exec next_label w) = can_write w.
Proof.
  unfold next_label, selection_clear_all, selection_set.
  run_handler. crush.
Qed.

Lemma select_label_frame (w : World) :
  doors_df (exec select_label w) = doors_df w /\
  csv_files (exec select_label w) = csv_files w /\
  written (exec select_label w) = written w /\
  path_to_csv (exec select_label w) = path_to_csv w /\
  current_image_index (exec select_label w) = current_image_index w /\
  current_image (exec select_label w) = current_image w /\
  image_files (exec select_label w) = image_files w /\
  can_write (exec select_label w) = can_write w.
Proof. unfold select_label, curselection. run_handler. crush. Qed.

Lemma click_label_frame (i : nat) (w : World) :
  doors_df (exec (click_label i) w) = doors_df w /\
  csv_files (exec (click_label i) w) = csv_files w /\
  written (exec (click_label i) w) = written w /\
  path_to_csv (exec (click_label i) w) = path_to_csv w /\
  current_image_index (exec (click_label i) w) = current_image_index w /\
  current_image (exec (click_label i) w) = current_image w /\
  image_files (exec (click_label i) w) = image_files w /\
  can_write (exec (click_label i) w) = can_write w.
Proof.
  unfold click_label. run_handler.
  destruct (i <? length (label_list_items w))%nat; [|done].
  exact (select_label_frame (set_label_list_selection [Z.of_nat i] w)).
Qed.

(** X3: choosing a label writes nothing and shows no other image.
    After [previous_label], [next_label], [select_label] or a click on
    a label, whether the handler returned or raised, the table, the
    files, the log of writes, the image index and the current image
    are what they were. *)
Theorem label_handlers_leave_store_and_image (w : World) (c : command) :
  c = LabelUp \/ c = LabelDown \/ c = SelectLabel \/ (exists i, c = Click i) ->
  doors_df (exec (handler c) w) = doors_df w /\
  csv_files (exec (handler c) w) = csv_files w /\
  written (exec (handler c) w) = written w /\
  current_image_index (exec (handler c) w) = current_image_index w /\
  current_image (exec (handler c) w) = current_image w.
Proof.
  intros [->|[->|[->|[i ->]]]]; cbn [handler].
  - destruct (previous_label_frame w) as (H1 & H2 & H3 & _ & H5 & H6 & _).
    now rewrite H1, H2, H3, H5, H6.
  - destruct (next_label_frame w) as (H1 & H2 & H3 & _ & H5 & H6 & _).
    now rewrite H1, H2, H3, H5, H6.
  - destruct (select_label_frame w) as (H1 & H2 & H3 & _ & H5 & H6 & _).
    now rewrite H1, H2, H3, H5, H6.
  - destruct (click_label_frame i w) as (H1 & H2 & H3 & _ & H5 & H6 & _).
    now rewrite H1, H2, H3, H5, H6.
Qed.

Lemma label_handlers_leave_store_and_image_witness :
  written (exec (handler (Click 1)) demo_world) = written demo_world /\
  current_label (exec (handler (Click 1)) demo_world) = Some "closed".
Proof.
  split; [|vm_compute; reflexivity].
  apply (label_handlers_leave_store_and_image demo_world (Click 1)).
  right. right. right. now exists 1%nat.
Defined.

(** ** The table that is written *)

Lemma saved_is_written (lbl : string) (w : World) :
  table_is_written (saved lbl w).
Proof. unfold table_is_written, saved. simpl. apply last_snoc. Qed.

Lemma save_writes_what_it_changes (w : World) :
  can_write w (path_to_csv w) = true ->
  (doors_df (exec save w) = doors_df w /\
   csv_files (exec save w) = csv_files w /\
   written (exec save w) = written w) \/
  table_is_written (exec save w).
Proof.
  intros Hcw. rewrite exec_save.
  destruct (current_label w) as [lbl|]; [|now left].
  destruct (bool_decide _); [|now left].
  rewrite Hcw. right. apply saved_is_written.
Qed.

Lemma moved_writes_what_it_changes (w w' : World) :
  can_write w (path_to_csv w) = true ->
  doors_df w' = doors_df (exec save w) ->
  csv_files w' = csv_files (exec save w) ->
  written w' = written (exec save w) ->
  path_to_csv w' = path_to_csv (exec save w) ->
  can_write w' = can_write (exec save w) ->
  path_to_csv w' = path_to_csv w /\ can_write w' = can_write w /\
  ((doors_df w' = doors_df w /\ csv_files w' = csv_files w /\
    written w' = written w) \/
   table_is_written w').
Proof.
  intros Hcw Hd Hf Hw Hp Hc.
  destruct (save_frame w) as (_ & _ & _ & _ & _ & _ & _ & _ & Hp' & Hc' & _).
  split; [now rewrite Hp|]. split; [now rewrite Hc|].
  destruct (save_writes_what_it_changes w Hcw) as [(Hd1 & Hf1 & Hw1)|Hh].
  - left. now rewrite Hd, Hf, Hw.
  - right. unfold table_is_written in *. now rewrite Hw, Hp, Hd.
Qed.

Lemma handler_writes_what_it_changes (c : command) (w : World) :
  can_write w (path_to_csv w) = true ->
  path_to_csv (exec (handler c) w) = path_to_csv w /\
  can_write (exec (handler c) w) = can_write w /\
  ((doors_df (exec (handler c) w) = doors_df w /\
    csv_files (exec (handler c) w) = csv_files w /\
    written (exec (handler c) w) = written w) \/
   table_is_written (exec (handler c) w)).
Proof.
  intros Hcw.
  assert (Hmove : forall i,
    let v := exec load_image (set_current_image_index i (exec save w)) in
    path_to_csv v = path_to_csv w /\ can_write v = can_write w /\
    ((doors_df v = doors_df w /\ csv_files v = csv_files w /\
      written v = written w) \/ table_is_written v)).
  { intros i v. subst v.
    match goal with |- context [exec load_image ?x] =>
      destruct (load_image_frame x)
        as (Hd & Hf & Hw & _ & _ & _ & _ & _ & _ & _ & Hp & _ & Hc) end.
    now apply moved_writes_what_it_changes. }
  destruct c; cbn [handler].
  - rewrite next_image_eq. cbn [negb andb].
    destruct (save_raises w); [|apply Hmove].
    now apply moved_writes_what_it_changes.
  - rewrite previous_image_eq.
    destruct (save_raises w); [|apply Hmove].
    now apply moved_writes_what_it_changes.
  - unfold skip_image. rewrite next_image_eq. cbn [negb andb]. cbv zeta.
    match goal with |- context [exec load_image ?x] =>
      destruct (load_image_frame x)
        as (Hd & Hf & Hw & _ & _ & _ & _ & _ & _ & _ & Hp & _ & Hc) end.
    rewrite Hc, Hp, Hd, Hf, Hw. split; [done|]. split; [done | now left].
  - destruct (previous_label_frame w) as (H1 & H2 & H3 & H4 & _ & _ & _ & H8).
    rewrite H1, H2, H3, H4, H8. split; [done|]. split; [done | now left].
  - destruct (next_label_frame w) as (H1 & H2 & H3 & H4 & _ & _ & _ & H8).
    rewrite H1, H2, H3, H4, H8. split; [done|]. split; [done | now left].
  - destruct (click_label_frame i w) as (H1 & H2 & H3 & H4 & _ & _ & _ & H8).
    rewrite H1, H2, H3, H4, H8. split; [done|]. split; [done | now left].
  - destruct (select_label_frame w) as (H1 & H2 & H3 & H4 & _ & _ & _ & H8).
    rewrite H1, H2, H3, H4, H8. split; [done|]. split; [done | now left].
Qed.

(** X4: nothing is lost by quitting without a last write.  With a
    table file that can be written, after any sequence of handlers
    either the table, the files and the log of writes are what they
    were at the start, or the table as it is in memory is the one that
    was written last, to the file of the table: every handler that
    changes the table writes it. *)
Theorem table_written_whenever_changed (cs : list command) (w : World) :
  can_write w (path_to_csv w) = true ->
  (doors_df (run cs w) = doors_df w /\
   csv_files (run cs w) = csv_files w /\
   written (run cs w) = written w) \/
  table_is_written (run cs w).
Proof.
  intros Hcw.
  enough (H : forall w0,
    can_write w (path_to_csv w) = true ->
    ((doors_df w = doors_df w0 /\ csv_files w = csv_files w0 /\
      written w = written w0) \/ table_is_written w) ->
    (doors_df (run cs w) = doors_df w0 /\
     csv_files (run cs w) = csv_files w0 /\
     written (run cs w) = written w0) \/
    table_is_written (run cs w)).
  { apply (H w Hcw). now left. }
  clear Hcw. revert w. induction cs as [|c cs IH]; intros w w0 Hcw Hq;
    [exact Hq|].
  cbn [run].
  destruct (handler_writes_what_it_changes c w Hcw)
    as (Hp & Hc & [(Hd & Hf & Hw)|Hh]).
  - apply IH; [now rewrite Hc, Hp|]. destruct Hq as [(Hd0 & Hf0 & Hw0)|Hh0].
    + left. repeat split; congruence.
    + right. unfold table_is_written in *. now rewrite Hw, Hp, Hd.
  - apply IH; [now rewrite Hc, Hp | now right].
Qed.

Lemma table_written_whenever_changed_witness :
  can_write demo_world (path_to_csv demo_world) = true /\
  table_is_written (run [Click 1; Next; Skip] demo_world).
Proof.
  assert (Hcw : can_write demo_world (path_to_csv demo_world) = true)
    by (vm_compute; reflexivity).
  split; [exact Hcw|].
  destruct (table_written_whenever_changed [Click 1; Next; Skip] demo_world Hcw)
    as [(_ & _ & Hw)|H]; [|exact H].
  destruct demo_world_fields as (_ & _ & _ & _ & _ & _ & _ & _ & _ & Ew).
  rewrite Ew in Hw. apply (f_equal length) in Hw.
  vm_compute in Hw. discriminate Hw.
Defined.

(** ** What a save changes in the table *)

Lemma upserted_row_frame (img : cell) (lbl : string) (g : Z) (df : DataFrame)
    (i : nat) (r : gmap string cell) :
  rows df !! i = Some r ->
  exists r', rows (upserted img lbl g df) !! i = Some r' /\
             r' !! "image" = r !! "image" /\
             r' !! "door_id" = r !! "door_id" /\
             forall c, c <> "label" -> same_or_float (r !! c) (r' !! c).
Proof.
  intros Hr. unfold upserted. destruct (existsb _ _); cbn [rows loc_set append].
  - change (map ?f ?l) with (f <$> l). rewrite list_lookup_fmap, Hr.
    cbn [fmap option_fmap option_map].
    destruct (mask_is img (row_get r "image")).
    + eexists. split; [reflexivity|].
      rewrite !lookup_insert_ne by done. repeat split.
      intros c Hc. left. now rewrite lookup_insert_ne.
    + exists r. repeat split. intros c _. now left.
  - eexists. split.
    + apply lookup_app_l_Some.
      change (map ?f ?l) with (f <$> l). rewrite list_lookup_fmap, Hr.
      reflexivity.
    + split; [apply upcast_row_keys; right; now left|].
      split; [apply upcast_row_keys; now left|].
      intros c _. apply upcast_row_same_or_float.
Qed.

Lemma upserted_length (img : cell) (lbl : string) (g : Z) (df : DataFrame) :
  length (rows (upserted img lbl g df))
  = (length (rows df) + if has_row img df then 0 else 1)%nat.
Proof.
  unfold upserted. fold (has_row img df).
  destruct (has_row img df); cbn [rows loc_set append].
  - rewrite length_map. lia.
  - rewrite length_app, length_map. reflexivity.
Qed.

(** X5: [save] changes nothing but labels and the kind of numbers.
    Every row of the table is still at its position after [save], with
    the same image and door_id, and with the same cell in every column
    other than label, except that an integer may have become the
    floating-point number of that integer; and the table has got one
    more row at most. *)
Theorem save_changes_labels_only (w : World) :
  (forall i r,
      rows (doors_df w) !! i = Some r ->
      exists r', rows (doors_df (exec save w)) !! i = Some r' /\
                 r' !! "image" = r !! "image" /\
                 r' !! "door_id" = r !! "door_id" /\
                 forall c, c <> "label" -> same_or_float (r !! c) (r' !! c)) /\
  (length (rows (doors_df w)) <= length (rows (doors_df (exec save w)))
   <= S (length (rows (doors_df w))))%nat.
Proof.
  assert (Hsame : (forall i r,
      rows (doors_df w) !! i = Some r ->
      exists r', rows (doors_df w) !! i = Some r' /\
                 r' !! "image" = r !! "image" /\
                 r' !! "door_id" = r !! "door_id" /\
                 forall c, c <> "label" -> same_or_float (r !! c) (r' !! c)) /\
    (length (rows (doors_df w)) <= length (rows (doors_df w))
     <= S (length (rows (doors_df w))))%nat).
  { split; [|lia]. intros i r Hr. exists r. repeat split; try done.
    intros c _. now left. }
  assert (Hup : forall lbl,
    let df := upserted (cell_of_name (current_image w)) lbl (door_id w)
                       (doors_df w) in
    (forall i r,
      rows (doors_df w) !! i = Some r ->
      exists r', rows df !! i = Some r' /\
                 r' !! "image" = r !! "image" /\
                 r' !! "door_id" = r !! "door_id" /\
                 forall c, c <> "label" -> same_or_float (r !! c) (r' !! c)) /\
    (length (rows (doors_df w)) <= length (rows df)
     <= S (length (rows (doors_df w))))%nat).
  { intros lbl df. subst df. split.
    - intros i r. apply upserted_row_frame.
    - rewrite upserted_length. destruct (has_row _ _); lia. }
  rewrite exec_save. destruct (current_label w) as [lbl|]; [|exact Hsame].
  destruct (bool_decide _); [|exact Hsame].
  destruct (can_write w (path_to_csv w)); apply Hup.
Qed.

(** ** Labels that read as missing values *)

Lemma is_na_plain (s : string) : is_na s = true -> plain s = true.
Proof.
  unfold is_na. intros H. apply bool_decide_eq_true in H.
  unfold NA_VALUES in H.
  repeat (apply elem_of_cons in H as [->|H]; [reflexivity|]).
  now apply elem_of_nil in H.
Qed.

(** X6: a label that pandas reads as a missing value is lost on the
    way through the file, whatever the table holds.  When the label
    that is saved for an image is one of the markers of a missing
    value (the empty string, NA, N/A, null, nan and the like), the
    table that [load_csv] then reads from the file has the rows of
    that image, and the label of each of them is a missing value.
    The name of the image is a text that [read_csv] gives back as it
    is, the table one whose columns have names of their own and whose
    texts are plain, and its file one that can be written. *)
Theorem missing_value_label_is_lost (w : World) (name lbl : string) :
  current_image w = Some name ->
  "image" ∈ columns (doors_df w) ->
  table_ok (doors_df w) ->
  can_write w (path_to_csv w) = true ->
  keeps_text name = true ->
  is_na lbl = true ->
  outcome load_csv (relabel lbl w) = Ok tt /\
  rows_for name (doors_df (exec load_csv (relabel lbl w))) <> [] /\
  Forall (fun r => r !! "label" = Some CNaN)
         (rows_for name (doors_df (exec load_csv (relabel lbl w)))).
Proof.
  intros Himg Hc Hok Hcw Hkn Hna.
  pose proof (keeps_text_parts _ Hkn) as (_ & _ & _ & Hpn).
  pose proof (is_na_plain _ Hna) as Hpl.
  set (df1 := upserted (CStr name) lbl (door_id w) (doors_df w)).
  assert (Hok1 : table_ok df1) by now apply table_ok_upserted.
  destruct Hok1 as (Hnd1 & Hne1 & Hcells1).
  pose proof (load_csv_relabel lbl w Hc Hcw) as Hload.
  rewrite Himg in Hload. cbn [cell_of_name] in Hload. fold df1 in Hload.
  specialize (Hload Hnd1 Hne1).
  unfold outcome, exec. rewrite Hload. cbn [fst snd doors_df set_doors_df].
  split; [reflexivity|].
  assert (Hc1 : "image" ∈ columns df1) by now apply upserted_columns.
  destruct (upserted_rows_for name lbl (door_id w) (doors_df w))
    as [Hne Hall]. fold df1 in Hne, Hall.
  rewrite (rows_for_reload name df1 Hc1 Hcells1 Hkn Hne).
  split; [now destruct (rows_for name df1)|].
  apply Forall_forall. intros r Hr.
  apply list_elem_of_In, in_map_iff in Hr as (r1 & <- & Hr1).
  apply list_elem_of_In in Hr1.
  pose proof (proj1 (Forall_forall _ _) Hall r1 Hr1) as Hlab.
  cbv beta in Hlab.
  rewrite (reload_cell df1 r1 "label" (upserted_has_label _ _ _ _)).
  unfold row_get. rewrite Hlab. cbn [default from_option id text_of_cell].
  unfold parse_field. now rewrite Hna.
Qed.

Lemma missing_value_label_is_lost_witness :
  current_image na_world = Some "b.jpg" /\
  "image" ∈ columns (doors_df na_world) /\
  table_ok (doors_df na_world) /\
  can_write na_world (path_to_csv na_world) = true /\
  keeps_text "b.jpg" = true /\
  is_na "N/A" = true /\
  rows_for "b.jpg" (doors_df (exec load_csv (relabel "N/A" na_world))) <> [].
Proof.
  assert (Hi : current_image na_world = Some "b.jpg")
    by (vm_compute; reflexivity).
  assert (Hd : doors_df na_world = empty_frame ["image"; "label"; "door_id"])
    by (vm_compute; reflexivity).
  assert (Hc : "image" ∈ columns (doors_df na_world)).
  { rewrite Hd. eapply bool_decide_eq_true_1; reflexivity. }
  assert (Hok : table_ok (doors_df na_world)).
  { rewrite Hd. apply table_ok_empty. }
  assert (Hcw : can_write na_world (path_to_csv na_world) = true)
    by (vm_compute; reflexivity).
  assert (Hkn : keeps_text "b.jpg" = true) by (vm_compute; reflexivity).
  assert (Hna : is_na "N/A" = true) by (vm_compute; reflexivity).
  split; [exact Hi|]. split; [exact Hc|]. split; [exact Hok|].
  split; [exact Hcw|]. split; [exact Hkn|]. split; [exact Hna|].
  exact (proj1 (proj2 (missing_value_label_is_lost na_world "b.jpg" "N/A"
                         Hi Hc Hok Hcw Hkn Hna))).
Defined.

(** ** A labeler without labels *)

Lemma label_handlers_current_label_on_raise (w : World) :
  labels w = [] ->
  outcome previous_label w = Raise IndexError /\
  current_label (exec previous_label w) = current_label w /\
  outcome next_label w = Raise IndexError /\
  current_label (exec next_label w) = current_label w.
Proof.
  intros Hl.
  unfold previous_label, next_label, selection_clear_all, selection_set.
  run_handler.
  repeat split; crush;
    match goal with H : py_index (labels w) _ = _ |- _ =>
      rewrite Hl, py_index_nil in H; now simplify_eq end.
Qed.

(** X7: with an empty list of labels (the default of the constructor)
    the label keys do not work.  [previous_label] and [next_label]
    raise IndexError and select no label; [previous_label] leaves the
    label index at -1 when it was 0 or -1, and [next_label] brings it
    back to 0. *)
Theorem label_cycling_without_labels (w : World) :
  labels w = [] ->
  -1 <= current_label_index w <= 0 ->
  (outcome previous_label w = Raise IndexError /\
   current_label_index (exec previous_label w) = -1 /\
   current_label (exec previous_label w) = current_label w) /\
  (outcome next_label w = Raise IndexError /\
   current_label_index (exec next_label w) = 0 /\
   current_label (exec next_label w) = current_label w).
Proof.
  intros Hl Hi.
  destruct (label_handlers_current_label_on_raise w Hl) as (H1 & H2 & H3 & H4).
  rewrite previous_label_index, next_label_index, Hl.
  unfold backward, forward. change (Z.of_nat (length [])) with 0.
  repeat split; try assumption.
  - destruct (current_label_index w - 1 <? 0) eqn:E; lia.
  - destruct (current_label_index w + 1 >=? 0) eqn:E; lia.
Qed.

Lemma label_cycling_without_labels_witness :
  labels no_labels_world = [] /\
  -1 <= current_label_index no_labels_world <= 0 /\
  current_label_index (exec previous_label no_labels_world) = -1 /\
  current_label_index
    (exec next_label (exec previous_label no_labels_world)) = 0.
Proof.
  assert (Hl : labels no_labels_world = []) by (vm_compute; reflexivity).
  assert (Hi : current_label_index no_labels_world = 0)
    by (vm_compute; reflexivity).
  assert (Hr : -1 <= current_label_index no_labels_world <= 0)
    by (rewrite Hi; lia).
  destruct (label_cycling_without_labels no_labels_world Hl Hr)
    as ((_ & Hp & _) & _).
  split; [exact Hl|]. split; [exact Hr|]. split; [exact Hp|].
  apply label_cycling_without_labels.
  - now rewrite previous_label_labels.
  - rewrite Hp. lia.
Defined.

(** ** Cycling through the labels *)

Lemma repeat_exec_snoc {A} (n : nat) (m : M A) (w : World) :
  repeat_exec (S n) m w = exec m (repeat_exec n m w).
Proof.
  revert w. induction n as [|n IH]; intros w; [reflexivity|].
  change (repeat_exec (S (S n)) m w) with (repeat_exec (S n) m (exec m w)).
  rewrite IH. reflexivity.
Qed.

Lemma repeat_next_label (N : nat) (w : World) :
  current_label_index (repeat_exec N next_label w)
    = Nat.iter N (forward (Z.of_nat (length (labels w))))
               (current_label_index w) /\
  labels (repeat_exec N next_label w) = labels w.
Proof.
  induction N as [|N [IHi IHl]]; [done|].
  rewrite repeat_exec_snoc, next_label_index, next_label_labels, IHi, IHl.
  done.
Qed.

Lemma forward_mod (n i : Z) : 0 <= i < n -> forward n i = (i + 1) mod n.
Proof.
  intros H. unfold forward. case_match.
  - assert (i + 1 = n) as -> by lia. symmetry. apply Z.mod_same. lia.
  - symmetry. apply Z.mod_small. lia.
Qed.

Lemma iter_forward_mod (n i : Z) (N : nat) :
  0 <= i < n -> Nat.iter N (forward n) i = (i + Z.of_nat N) mod n.
Proof.
  intros H. induction N as [|N IH].
  - simpl. rewrite Z.add_0_r. symmetry. now apply Z.mod_small.
  - rewrite Nat.iter_succ, IH, forward_mod by (apply Z.mod_pos_bound; lia).
    rewrite Z.add_mod_idemp_l by lia. f_equal. lia.
Qed.

(** X8: the labels go round.  From a label index within the label
    list, [next_label] followed by [previous_label] selects the label
    that was current before, and as many runs of [next_label] as there
    are labels bring the index back to where it was, with the label
    at that index selected. *)
Theorem label_cycle_returns (w : World) :
  0 <= current_label_index w < Z.of_nat (length (labels w)) ->
  (current_label_index (exec previous_label (exec next_label w))
     = current_label_index w /\
   current_label (exec previous_label (exec next_label w))
     = labels w !! Z.to_nat (current_label_index w)) /\
  (current_label_index (repeat_exec (length (labels w)) next_label w)
     = current_label_index w /\
   current_label (repeat_exec (length (labels w)) next_label w)
     = labels w !! Z.to_nat (current_label_index w)).
Proof.
  intros Hi. split.
  - pose proof (forward_in_range _ _ Hi) as Hf.
    assert (Hb : backward (Z.of_nat (length (labels (exec next_label w))))
                          (current_label_index (exec next_label w))
                 = current_label_index w).
    { rewrite next_label_labels, next_label_index.
      now apply backward_forward. }
    destruct (previous_label_current (exec next_label w)) as [_ Hl].
    { rewrite Hb, next_label_labels. exact Hi. }
    rewrite previous_label_index, Hb. split; [reflexivity|].
    now rewrite Hl, Hb, next_label_labels.
  - destruct (length (labels w)) as [|n] eqn:En; [simpl in Hi; lia|].
    destruct (repeat_next_label n w) as [Hn Hl].
    rewrite repeat_exec_snoc.
    assert (Hf : forward (Z.of_nat (length (labels (repeat_exec n next_label w))))
                         (current_label_index (repeat_exec n next_label w))
                 = current_label_index w).
    { rewrite Hn, Hl, En.
      change (forward ?a (Nat.iter n (forward ?a) ?b))
        with (Nat.iter (S n) (forward a) b).
      rewrite iter_forward_mod by exact Hi.
      rewrite <- (Z.mul_1_l (Z.of_nat (S n))) at 1.
      rewrite Z.mod_add by lia. apply Z.mod_small. exact Hi. }
    destruct (next_label_current (repeat_exec n next_label w)) as [_ Hc].
    { rewrite Hf, Hl, En. exact Hi. }
    rewrite next_label_index, Hf. split; [reflexivity|].
    now rewrite Hc, Hf, Hl.
Qed.

Lemma label_cycle_returns_witness :
  0 <= current_label_index demo_world
    < Z.of_nat (length (labels demo_world)) /\
  current_label (repeat_exec 2 next_label demo_world) = Some "open".
Proof.
  destruct demo_world_fields as (_ & _ & _ & _ & _ & Ei & El & _).
  assert (H : 0 <= current_label_index demo_world
              < Z.of_nat (length (labels demo_world))).
  { rewrite Ei, El. simpl. lia. }
  split; [exact H|].
  destruct (label_cycle_returns demo_world H) as [_ [_ Hc]].
  rewrite El, Ei in Hc. exact Hc.
Defined.

(** ** Images that do not reach the crop rectangle *)

(** X9: an image that is not wider than 1020 pixels or not higher than
    510 pixels is shown blank: [prepare_image] returns a 280 x 840
    image all of whose pixels hold the fill value.  An image that has
    been prepared once is such an image, so preparing it again blanks
    it. *)
Theorem prepare_image_blank (im : Image) :
  width im <= 1020 \/ height im <= 510 ->
  exists out,
    prepare_image im = Ok out /\ width out = 280 /\ height out = 840 /\
    (forall x y, 0 <= x -> 0 <= y -> getpixel out x y = 0) /\
    exists out',
      prepare_image out = Ok out' /\
      forall x y, 0 <= x -> 0 <= y -> getpixel out' x y = 0.
Proof.
  intros Hsmall. eexists. split; [reflexivity|]. cbn [width height].
  split; [reflexivity|]. split; [reflexivity|]. split.
  - intros x y Hx Hy. cbn [getpixel]. unfold in_image.
    case_match; [lia | reflexivity].
  - eexists. split; [reflexivity|].
    intros x y Hx Hy. cbn [getpixel]. unfold in_image at 1. cbn [width height].
    case_match; [lia | reflexivity].
Qed.

Lemma prepare_image_blank_witness :
  (width small_image <= 1020 \/ height small_image <= 510) /\
  exists out, prepare_image small_image = Ok out /\ getpixel out 5 5 = 0.
Proof.
  assert (H : width small_image <= 1020 \/ height small_image <= 510)
    by (left; simpl; lia).
  split; [exact H|].
  destruct (prepare_image_blank small_image H) as (out & Ho & _ & _ & Hp & _).
  exists out. split; [exact Ho|]. apply Hp; lia.
Defined.

(** ** The current image follows the index *)







(** ** Moving on with a label selected *)






(** ** An image that cannot be opened *)




(** ** Picking a label in the list box *)

(** X13: [select_label] takes the first of the selected items: when it
    is an index of a label, that label becomes the current one, at that
    index, and the handler returns; when nothing is selected in the
    list box the handler raises IndexError and changes nothing.  A
    click on the item [i] of a list box that shows the labels selects
    the label at [i]. *)
Theorem select_label_takes_first_selected (w : World) :
  (forall i rest lbl,
      label_list_selection w = Z.of_nat i :: rest ->
      labels w !! i = Some lbl ->
      outcome select_label w = Ok tt /\
      current_label_index (exec select_label w) = Z.of_nat i /\
      current_label (exec select_label w) = Some lbl) /\
  (label_list_selection w = [] ->
   outcome select_label w = Raise IndexError /\ exec select_label w = w) /\
  (forall i lbl,
      label_list_items w = labels w ->
      labels w !! i = Some lbl ->
      outcome (click_label i) w = Ok tt /\
      current_label_index (exec (click_label i) w) = Z.of_nat i /\
      current_label (exec (click_label i) w) = Some lbl /\
      label_list_selection (exec (click_label i) w) = [Z.of_nat i]).
Proof.
  assert (Hsel : forall v i rest lbl,
    label_list_selection v = Z.of_nat i :: rest ->
    labels v !! i = Some lbl ->
    select_label v
    = (Ok tt, set_current_label (Some lbl)
                (set_current_label_index (Z.of_nat i) v))).
  { intros v i rest lbl Hs Hl.
    assert (Hr : 0 <= Z.of_nat i < Z.of_nat (length (labels v))).
    { apply lookup_lt_Some in Hl. lia. }
    destruct (py_index_in_range _ _ Hr) as (x & Hx & Hp).
    rewrite Nat2Z.id, Hl in Hx. injection Hx as <-.
    unfold select_label, curselection. run_handler.
    rewrite Hs. unfold py_index at 1. cbn [length]. simpl.
    now rewrite Hp. }
  split; [|split].
  - intros i rest lbl Hs Hl. unfold outcome, exec.
    now rewrite (Hsel w i rest lbl Hs Hl).
  - intros Hs. unfold outcome, exec, select_label, curselection.
    run_handler. now rewrite Hs, py_index_nil.
  - intros i lbl Hit Hl.
    assert (Hlt : (i <? length (label_list_items w))%nat = true).
    { apply Nat.ltb_lt. rewrite Hit. now apply lookup_lt_Some in Hl. }
    unfold outcome, exec, click_label. run_handler. rewrite Hlt.
    now rewrite (Hsel (set_label_list_selection [Z.of_nat i] w) i [] lbl).
Qed.

Lemma select_label_takes_first_selected_witness :
  label_list_items demo_world = labels demo_world /\
  labels demo_world !! 1%nat = Some "closed" /\
  current_label (exec (click_label 1) demo_world) = Some "closed".
Proof.
  destruct demo_world_fields as (_ & _ & _ & _ & _ & _ & El & Eit & _).
  assert (Hit : label_list_items demo_world = labels demo_world)
    by now rewrite El, Eit.
  assert (Hl : labels demo_world !! 1%nat = Some "closed") by now rewrite El.
  split; [exact Hit|]. split; [exact Hl|].
  destruct (select_label_takes_first_selected demo_world) as (_ & _ & Hc).
  destruct (Hc 1%nat "closed" Hit Hl) as (_ & _ & Hcur & _). exact Hcur.
Defined.

(** ** Starting *)

(** X14: a labeler cannot start on a directory without images: when no
    file of the directory is an image file and the table loads,
    [startup] raises IndexError at [load_image], the list box being
    filled and no image current. *)
Theorem startup_without_images (w : World) :
  image_files w = [] ->
  outcome load_csv w = Ok tt ->
  outcome startup w = Raise IndexError /\
  label_list_items (exec startup w) = labels w /\
  current_image (exec startup w) = current_image w.
Proof.
  intros Hf. unfold outcome, exec, startup, load_csv, load_labels, load_image.
  run_handler.
  destruct (csv_files w !! path_to_csv w) as [t|]; simpl.
  - destruct (read_csv t); simpl; [|discriminate].
    intros _. now rewrite Hf, py_index_nil.
  - intros _. now rewrite Hf, py_index_nil.
Qed.

Lemma startup_without_images_witness :
  image_files (set_image_files [] fresh_world) = [] /\
  outcome load_csv (set_image_files [] fresh_world) = Ok tt /\
  outcome startup (set_image_files [] fresh_world) = Raise IndexError.
Proof.
  split; [reflexivity|]. split; [reflexivity|].
  apply startup_without_images; reflexivity.
Defined.

Lemma startup_nav_inv_witness :
  labels fresh_world <> [] /\
  outcome startup fresh_world = Ok tt /\
  indices_valid (exec startup fresh_world).
Proof.
  assert (Hl : labels fresh_world <> []) by discriminate.
  assert (Ho : outcome startup fresh_world = Ok tt) by (vm_compute; reflexivity).
  split; [exact Hl|]. split; [exact Ho|].
  exact (proj1 (startup_nav_inv fresh_world Hl eq_refl eq_refl eq_refl Ho)).
Defined.

(** ** The list of the images *)

Lemma for_each_image_files (listing : list string) (w : World) :
  for_each listing (fun file =>
    if endswith ".jpg" file || endswith ".png" file
    then modify (fun w => set_image_files (image_files w ++ [file]) w)
    else ret tt) w
  = (Ok tt,
     set_image_files
       (image_files w ++ filter (fun f => is_image_file f = true) listing) w).
Proof.
  revert w. induction listing as [|file listing IH]; intros w.
  - cbn [for_each]. rewrite filter_nil, app_nil_r. now destruct w.
  - cbn [for_each]. unfold bind at 1. rewrite filter_cons.
    fold (is_image_file file).
    destruct (is_image_file file) eqn:E; run_handler; rewrite IH.
    + cbn [image_files set_image_files]. now rewrite <- app_assoc.
    + reflexivity.
Qed.

Lemma load_image_files_eq (listing : list string)
    (shuffle : list string -> list string) (w : World) :
  load_image_files listing shuffle w
  = (Ok tt,
     set_image_files
       (shuffle (filter (fun f => is_image_file f = true) listing)) w).
Proof.
  unfold load_image_files, bind, modify.
  rewrite for_each_image_files. reflexivity.
Qed.

(** X15: [load_image_files] lists the image files of the directory and
    nothing else.  Whatever [image_files] held before, afterwards it
    holds, in some order, exactly the names of the listing that end in
    .jpg or .png, each as often as the listing has it; every name in
    it that is a plain text is one that [read_csv] gives back as it
    is, so that the image column of the table file gives the names
    back. *)
Theorem load_image_files_lists_images (listing : list string)
    (shuffle : list string -> list string) (w : World) :
  (forall l, shuffle l ≡ₚ l) ->
  outcome (load_image_files listing shuffle) w = Ok tt /\
  image_files (exec (load_image_files listing shuffle) w)
    ≡ₚ filter (fun f => is_image_file f = true) listing /\
  Forall (fun f => is_image_file f = true /\
                   (plain f = true -> keeps_text f = true))
         (image_files (exec (load_image_files listing shuffle) w)).
Proof.
  intros Hsh. unfold outcome, exec. rewrite load_image_files_eq.
  cbn [fst snd image_files set_image_files].
  split; [reflexivity|]. split; [apply Hsh|].
  apply Forall_forall. intros f Hf.
  rewrite (Hsh _) in Hf. apply list_elem_of_filter in Hf as [Hf _].
  split; [exact Hf | now apply is_image_file_keeps_text].
Qed.

Lemma load_image_files_lists_images_witness :
  (forall l : list string, reverse l ≡ₚ l) /\
  image_files
    (exec (load_image_files ["a.jpg"; "notes.txt"; "b.png"; "c.JPG"] reverse)
          fresh_world)
  = ["b.png"; "a.jpg"] /\
  Forall (fun f => is_image_file f = true /\
                   (plain f = true -> keeps_text f = true))
         (image_files
            (exec (load_image_files ["a.jpg"; "notes.txt"; "b.png"; "c.JPG"]
                                    reverse)
                  fresh_world)).
Proof.
  assert (H : forall l : list string, reverse l ≡ₚ l)
    by (intros l; apply reverse_Permutation).
  split; [exact H|]. split; [reflexivity|].
  exact (proj2 (proj2 (load_image_files_lists_images
                         ["a.jpg"; "notes.txt"; "b.png"; "c.JPG"] reverse
                         fresh_world H))).
Defined.
